(** * Membership augmentation: a shallow embedding of [augment_data]

    The development follows the two Python modules of the repository:

    - [austin_city_api.py]: the client of the two municipal endpoints
      ([AustinDataService.geocode_address], [get_council_district]);
    - [augment_data.py]: [assemble_address], [add_city_council_district]
      and the [main] loop that paces the requests and writes the CSV.

    Python values are an inductive type, dictionaries are association
    lists in insertion order (the column order of the output depends on
    it), and effects (requests, log calls, sleeps, the written file, the
    row mutated in place) are threaded through a small state-and-exception
    monad in which a raised exception keeps the state reached so far. *)

From Stdlib Require Import String Ascii List ZArith Bool Lia DecimalString.
From Stdlib Require Import Floats.SpecFloat.
Import ListNotations.
Local Open Scope string_scope.
Set Warnings "-register-all".

(** ** Python values *)

(** The values that flow through the program: what [json.loads] builds,
    what [csv.DictReader] puts in a row, and what the augmentation stores.
    A Python [float] is kept as its IEEE datum; the program never computes
    with one. Characters of a [str] are the 8-bit characters of [string]. *)
Inductive value : Type :=
| VNone
| VBool (b : bool)
| VInt (z : Z)
| VFloat (f : spec_float)
| VStr (s : string)
| VList (l : list value)
| VDict (d : list (string * value)).

(** A [dict] with string keys, in insertion order. *)
Definition dict : Type := list (string * value).

(** The exceptions the program can meet. *)
Inductive exn : Type :=
| KeyError
| IndexError
| TypeError
| ValueError
| OverflowError
| JSONDecodeError
| RequestException
| OSError.

Inductive result (A : Type) : Type :=
| Ok (a : A)
| Raise (e : exn).
Arguments Ok {A} a.
Arguments Raise {A} e.

(** ** Dictionaries *)

Module Dict.

Section Generic.
Context {V : Type}.

(** [d[k]] without the exception: the value bound to [k], if any. *)
Fixpoint lookup (k : string) (d : list (string * V)) : option V :=
  match d with
  | [] => None
  | (k', v) :: d' => if String.eqb k k' then Some v else lookup k d'
  end.

(** [k in d] *)
Definition contains (k : string) (d : list (string * V)) : bool :=
  match lookup k d with
  | Some _ => true
  | None => false
  end.

(** [d.get(k, default)] *)
Definition get (k : string) (default : V) (d : list (string * V)) : V :=
  match lookup k d with
  | Some v => v
  | None => default
  end.

(** [d[k] = v]: an existing key keeps its position, a new key goes last. *)
Fixpoint set (k : string) (v : V) (d : list (string * V))
  : list (string * V) :=
  match d with
  | [] => [(k, v)]
  | (k', v') :: d' =>
      if String.eqb k k' then (k, v) :: d' else (k', v') :: set k v d'
  end.

(** [d.keys()] *)
Definition keys (d : list (string * V)) : list string := map fst d.

End Generic.

End Dict.

(** [k in keys] for a list of names. *)
Definition mem (k : string) (ks : list string) : bool :=
  existsb (String.eqb k) ks.

(** ** Built-in operations on values *)

(** Truth value of an object, as [if v:] tests it. *)
Definition truthy (v : value) : bool :=
  match v with
  | VNone => false
  | VBool b => b
  | VInt z => negb (Z.eqb z 0)
  | VFloat (S754_zero _) => false
  | VFloat _ => true
  | VStr s => negb (String.eqb s "")
  | VList l => match l with [] => false | _ => true end
  | VDict d => match d with [] => false | _ => true end
  end.

(** [v[k]] for a string key [k]: only a dict accepts it. *)
Definition getitem (v : value) (k : string) : result value :=
  match v with
  | VDict d =>
      match Dict.lookup k d with
      | Some x => Ok x
      | None => Raise KeyError
      end
  | _ => Raise TypeError
  end.

(** [v[0]] *)
Definition getitem0 (v : value) : result value :=
  match v with
  | VList (x :: _) => Ok x
  | VList [] => Raise IndexError
  | VStr (String c _) => Ok (VStr (String c ""))
  | VStr EmptyString => Raise IndexError
  | VDict _ => Raise KeyError
  | _ => Raise TypeError
  end.

(** [int(f)] for a float: truncation toward zero. *)
Definition int_of_float (f : spec_float) : result Z :=
  match f with
  | S754_zero _ => Ok 0%Z
  | S754_infinity _ => Raise OverflowError
  | S754_nan => Raise ValueError
  | S754_finite s m e =>
      let a := Z.shiftl (Z.pos m) e in
      Ok (if s then Z.opp a else a)
  end.

(** [s.startswith(p)] *)
Definition startswith (p s : string) : bool := String.prefix p s.

(** [s[start:stop]] for integer bounds: a negative bound counts from the
    end, and both are clamped to the string. *)
Definition slice_bound (len i : Z) : Z :=
  let j := if (i <? 0)%Z then (i + len)%Z else i in
  Z.max 0 (Z.min len j).

Definition slice (s : string) (start stop : Z) : string :=
  let len := Z.of_nat (String.length s) in
  let a := slice_bound len start in
  let b := slice_bound len stop in
  String.substring (Z.to_nat a) (Z.to_nat (b - a)) s.

(** [s.index(sub)]: the first position of [sub], [ValueError] without one. *)
Definition str_index (sub s : string) : result nat :=
  match String.index 0 sub s with
  | Some i => Ok i
  | None => Raise ValueError
  end.

(** ** The state-and-exception monad *)

(** A computation over a state [S]: the state it leaves and either a value
    or the exception it raised. *)
Definition M (S A : Type) : Type := S -> S * result A.

Definition ret {S A} (a : A) : M S A := fun s => (s, Ok a).

Definition raise {S A} (e : exn) : M S A := fun s => (s, Raise e).

Definition bind {S A B} (c : M S A) (k : A -> M S B) : M S B :=
  fun s =>
    match c s with
    | (s', Ok a) => k a s'
    | (s', Raise e) => (s', Raise e)
    end.

Definition lift_result {S A} (r : result A) : M S A := fun s => (s, r).

Declare Scope monad_scope.
Delimit Scope monad_scope with monad.
Notation "x <- c ;; k" := (bind c (fun x => k))
  (at level 61, c at next level, right associativity) : monad_scope.
Notation "c ;; k" := (bind c (fun _ => k))
  (at level 61, right associativity) : monad_scope.
Local Open Scope monad_scope.

(** ** The API client: [austin_city_api.py] *)

Module Location.
Record t : Type := mk { x : value; y : value }.
End Location.

Module Extent.
Record t : Type :=
  mk { xmin : value; ymin : value; xmax : value; ymax : value }.
End Extent.

(** The dataclasses check no field type: a field holds whatever value the
    payload carried. *)
Module GeocodedAddress.
Record t : Type :=
  mk { address : value;
       location : Location.t;
       score : value;
       extent : Extent.t }.
End GeocodedAddress.

(** A dataclass with fields [names] built from the unpacked mapping [v]
    (the double-star call): [v] must be a mapping that binds exactly those
    names. *)
Definition kwargs (names : list string) (v : value) : result dict :=
  match v with
  | VDict d =>
      if forallb (fun k => mem k names) (Dict.keys d)
         && forallb (fun n => Dict.contains n d) names
      then Ok d
      else Raise TypeError
  | _ => Raise TypeError
  end.

Definition Location_of (v : value) : result Location.t :=
  match kwargs ["x"; "y"] v with
  | Ok d => Ok (Location.mk (Dict.get "x" VNone d) (Dict.get "y" VNone d))
  | Raise e => Raise e
  end.

Definition Extent_of (v : value) : result Extent.t :=
  match kwargs ["xmin"; "ymin"; "xmax"; "ymax"] v with
  | Ok d =>
      Ok (Extent.mk (Dict.get "xmin" VNone d) (Dict.get "ymin" VNone d)
                    (Dict.get "xmax" VNone d) (Dict.get "ymax" VNone d))
  | Raise e => Raise e
  end.

(** Levels of the [logging] module that the program uses. *)
Inductive level : Type := INFO | WARNING.

(** What a run does to the outside, in the order it does it: a call to
    [logger.info] or [logger.warning] (whether or not the configured level
    lets the record through), a GET request, a completed [time.sleep]. *)
Inductive event : Type :=
| Log (lvl : level) (msg : string)
| Get (url : string) (params : dict)
| Sleep (secs : value).

(** A CSV file as the [csv] module sees it: records of fields. *)
Definition csv_file : Type := list (list string).

Section Program.

(** *** What the program takes from outside *)

(** The remote side of the HTTP session (servers and cookies), and the
    answer to a GET request: the new remote state and the body of the
    response, or nothing when [requests] raises. The status code of a
    response is never looked at. *)
Variable net : Type.
Variable http_get : net -> string -> dict -> net * option string.

(** [json.loads]; [None] when the text is not JSON. *)
Variable json_loads : string -> option value.

(** [repr] of a value that is not a [str], and [int] of a [str]. *)
Variable repr : value -> string.
Variable int_of_str : string -> option Z.

(** The exception [time.sleep] raises for a duration it refuses. *)
Variable sleep_refuses : value -> option exn.

(** The rows [csv.DictReader] yields for the file at a path. *)
Variable csv_rows : string -> result (list dict).

(** *** The world *)

Record World : Type :=
  mkWorld { remote : net;
            log_level : level;
            trace : list event;
            files : list (string * csv_file) }.

Definition emit (e : event) : M World unit :=
  fun w =>
    (mkWorld (remote w) (log_level w) (trace w ++ [e]) (files w), Ok tt).

Definition logger_info (msg : string) : M World unit := emit (Log INFO msg).

Definition logger_warning (msg : string) : M World unit :=
  emit (Log WARNING msg).

(** [session.get(url, params=params)], giving [response.text]. *)
Definition session_get (url : string) (params : dict) : M World string :=
  fun w =>
    let w1 :=
      mkWorld (remote w) (log_level w) (trace w ++ [Get url params])
              (files w) in
    match http_get (remote w) url params with
    | (n, Some text) =>
        (mkWorld n (log_level w1) (trace w1) (files w1), Ok text)
    | (n, None) =>
        (mkWorld n (log_level w1) (trace w1) (files w1),
         Raise RequestException)
    end.

(** *** Formatting and conversion *)

(** [str(v)], which is what an f-string field [{v}] prints. *)
Definition str (v : value) : string :=
  match v with
  | VStr s => s
  | _ => repr v
  end.

(** [int(v)] *)
Definition int (v : value) : result Z :=
  match v with
  | VInt z => Ok z
  | VBool b => Ok (if b then 1%Z else 0%Z)
  | VFloat f => int_of_float f
  | VStr s =>
      match int_of_str s with
      | Some z => Ok z
      | None => Raise ValueError
      end
  | _ => Raise TypeError
  end.

Definition loads {S} (text : string) : M S value :=
  match json_loads text with
  | Some v => ret v
  | None => raise JSONDecodeError
  end.

(** *** [AustinDataService] *)

(** [__init__]: the session is primed by fetching the landing page. *)
Definition AustinDataService_init : M World unit :=
  _ <- session_get "https://www.austintexas.gov/government" [] ;;
  ret tt.

Definition geocode_url : string :=
  "https://maps.austintexas.gov/arcgis/rest/services/Geocode/COA_Locator/GeocodeServer/findAddressCandidates".

Definition geocode_params (address : string) : dict :=
  [ ("outFields", VStr "");
    ("maxLocations", VInt 1);
    ("outSR", VStr "");
    ("searchExtent", VStr "");
    ("f", VStr "pjson");
    ("SingleLine", VStr address);
    ("callback", VStr "callback");
    ("js", VInt 1) ].

(** The end of [geocode_address], from the parsed payload on. *)
Definition geocoded_of_payload (address : string) (data : value)
  : M World (option GeocodedAddress.t) :=
  candidates <- lift_result (getitem data "candidates") ;;
  if truthy candidates then
    candidate <- lift_result (getitem0 candidates) ;;
    address_ <- lift_result (getitem candidate "address") ;;
    location_v <- lift_result (getitem candidate "location") ;;
    location_ <- lift_result (Location_of location_v) ;;
    score_ <- lift_result (getitem candidate "score") ;;
    extent_v <- lift_result (getitem candidate "extent") ;;
    extent_ <- lift_result (Extent_of extent_v) ;;
    ret (Some (GeocodedAddress.mk address_ location_ score_ extent_))
  else
    logger_info ("No geocoded address found for " ++ address) ;;
    ret None.

Definition geocode_address (address : string)
  : M World (option GeocodedAddress.t) :=
  text <- session_get geocode_url (geocode_params address) ;;
  (if negb (startswith "callback(" text)
   then logger_warning
          ("Received JSONP response with callback name "
             ++ slice text 0 10 ++ ".. which is not expected.")
   else ret tt) ;;
  i <- lift_result (str_index "(" text) ;;
  let json_str := slice text (Z.of_nat i + 1) (-2) in
  data <- loads json_str ;;
  geocoded_of_payload address data.

Definition district_url : string :=
  "https://maps.austintexas.gov/gis/rest/Shared/CouncilDistrictsFill/MapServer/0/query".

Definition district_params (location : Location.t) : dict :=
  [ ("geometryType", VStr "esriGeometryPoint");
    ("spatialRel", VStr "esriSpatialRelIntersects");
    ("outFields", VStr "COUNCIL_DISTRICT");
    ("returnGeometry", VStr "false");
    ("f", VStr "pjson");
    ("geometry",
     VStr (str (Location.x location) ++ "," ++ str (Location.y location))) ].

Definition get_council_district (location : Location.t)
  : M World (option Z) :=
  text <- session_get district_url (district_params location) ;;
  data <- loads text ;;
  features <- lift_result (getitem data "features") ;;
  if truthy features then
    feature <- lift_result (getitem0 features) ;;
    attributes <- lift_result (getitem feature "attributes") ;;
    district <- lift_result (getitem attributes "COUNCIL_DISTRICT") ;;
    d <- lift_result (int district) ;;
    ret (Some d)
  else ret None.

(** ** The augmentation: [augment_data.py] *)

(** The parsed command line. *)
Record Args : Type :=
  mkArgs { verbose : bool;
           input : string;
           output : string;
           interval : value }.

(** The default of [--interval]. *)
Definition default_interval : value := VInt 30.

(** The namespace that [parse_args] builds once the options are read:
    [--interval] falls back to its default. *)
Definition parse_args (v : bool) (i o : string) (n : option value) : Args :=
  mkArgs v i o (match n with Some secs => secs | None => default_interval end).

Definition basicConfig (lvl : level) : M World unit :=
  fun w => (mkWorld (remote w) lvl (trace w) (files w), Ok tt).

(** [time.sleep(secs)] *)
Definition time_sleep (secs : value) : M World unit :=
  match sleep_refuses secs with
  | Some e => raise e
  | None => emit (Sleep secs)
  end.

Definition read_csv (filename : string) : M World (list dict) :=
  lift_result (csv_rows filename).

Definition assemble_address (row : dict) : string :=
  str (Dict.get "address1" (VStr "") row) ++ " "
    ++ str (Dict.get "address2" (VStr "") row) ++ ", "
    ++ str (Dict.get "city" (VStr "") row) ++ ","
    ++ " " ++ str (Dict.get "state" (VStr "") row) ++ ", "
    ++ str (Dict.get "zip" (VStr "") row) ++ ", "
    ++ str (Dict.get "country" (VStr "") row).

(** *** A row mutated in place *)

(** [add_city_council_district] works on a row object that its caller
    keeps: its state is the world together with that row, and an
    exception leaves the row as far as it was updated. *)
Definition on_world {A} (c : M World A) : M (World * dict) A :=
  fun s =>
    match c (fst s) with
    | (w, r) => ((w, snd s), r)
    end.

Definition the_row : M (World * dict) dict := fun s => (s, Ok (snd s)).

(** [row[k] = v] *)
Definition setitem (k : string) (v : value) : M (World * dict) unit :=
  fun s => ((fst s, Dict.set k v (snd s)), Ok tt).

Definition add_city_council_district : M (World * dict) unit :=
  row <- the_row ;;
  if Dict.contains "city_council_district" row then ret tt
  else
    let address := assemble_address row in
    geocoded_address <- on_world (geocode_address address) ;;
    match geocoded_address with
    | Some g =>
        setitem "geocoded_address" (GeocodedAddress.address g) ;;
        on_world
          (logger_info
             ("Requesting council district for "
                ++ str (GeocodedAddress.address g))) ;;
        district <-
          on_world (get_council_district (GeocodedAddress.location g)) ;;
        setitem "city_council_district"
          (match district with
           | Some d => VInt d
           | None => VStr "Unknown"
           end)
    | None =>
        setitem "geocoded_address" (VStr "") ;;
        setitem "city_council_district" (VStr "")
    end ;;
    row' <- the_row ;;
    on_world
      (logger_info
         ("  City Council District: "
            ++ str (Dict.get "city_council_district" VNone row'))).

(** The call on one row of [data]: the world after it and the row as the
    call left it. *)
Definition call_on_row (row : dict) : M World dict :=
  fun w =>
    match add_city_council_district (w, row) with
    | ((w', row'), Ok _) => (w', Ok row')
    | ((w', _), Raise e) => (w', Raise e)
    end.

(** *** Writing the CSV *)

Definition write_file (path : string) (content : csv_file) : M World unit :=
  fun w =>
    (mkWorld (remote w) (log_level w) (trace w)
             (Dict.set path content (files w)), Ok tt).

(** [open(path, "w")]: the file is created or emptied. *)
Variable can_write : string -> bool.

Definition open_w (path : string) : M World unit :=
  if can_write path then write_file path [] else raise OSError.

(** One more record at the end of the file. *)
Definition write_record (path : string) (record : list string)
  : M World unit :=
  fun w => write_file path (Dict.get path [] (files w) ++ [record])%list w.

(** How the [csv] writer prints a field: nothing for [None], else [str]. *)
Definition csv_field (v : value) : string :=
  match v with
  | VNone => ""
  | _ => str v
  end.

(** [DictWriter._dict_to_list] with the default [extrasaction="raise"]
    and [restval=""]. *)
Definition dict_to_list (fieldnames : list string) (rowdict : dict)
  : result (list string) :=
  if forallb (fun k => mem k fieldnames) (Dict.keys rowdict)
  then Ok (map (fun key => csv_field (Dict.get key (VStr "") rowdict))
               fieldnames)
  else Raise ValueError.

Definition writeheader (path : string) (fieldnames : list string)
  : M World unit :=
  write_record path fieldnames.

Fixpoint writerows (path : string) (fieldnames : list string)
         (rows : list dict) : M World unit :=
  match rows with
  | [] => ret tt
  | rowdict :: rest =>
      record <- lift_result (dict_to_list fieldnames rowdict) ;;
      write_record path record ;;
      writerows path fieldnames rest
  end.

(** *** [main] *)

(** The loop over [data]; the rows come back as the calls left them. *)
Fixpoint process_rows (secs : value) (data : list dict)
  : M World (list dict) :=
  match data with
  | [] => ret []
  | row :: rest =>
      logger_info
        ("Processing row: name: "
           ++ str (Dict.get "first_name" VNone row) ++ " "
           ++ str (Dict.get "last_name" VNone row)
           ++ " address: " ++ assemble_address row) ;;
      row' <- call_on_row row ;;
      time_sleep secs ;;
      rest' <- process_rows secs rest ;;
      ret (row' :: rest')
  end.

Definition main (args : Args) : M World unit :=
  basicConfig (if verbose args then INFO else WARNING) ;;
  logger_info ("Data loaded from " ++ input args) ;;
  data <- read_csv (input args) ;;
  AustinDataService_init ;;
  data <- process_rows (interval args) data ;;
  open_w (output args) ;;
  first <- lift_result (match data with
                        | row :: _ => Ok row
                        | [] => Raise IndexError
                        end) ;;
  let fieldnames := Dict.keys first in
  writeheader (output args) fieldnames ;;
  writerows (output args) fieldnames data ;;
  logger_info ("Augmented data written to " ++ output args).

End Program.

Arguments remote {net} w.
Arguments log_level {net} w.
Arguments trace {net} w.
Arguments files {net} w.
Arguments mkWorld {net} remote log_level trace files.

(** ** Vocabulary of the properties *)

Definition ccd : string := "city_council_district".
Definition ga : string := "geocoded_address".

(** The address template of the specification. *)
Definition template (address1 address2 city state zip country : string)
  : string :=
  address1 ++ " " ++ address2 ++ ", " ++ city ++ ", " ++ state ++ ", "
    ++ zip ++ ", " ++ country.

(** Position of the first opening parenthesis of a text, read character by
    character. *)
Fixpoint first_paren (s : string) : option nat :=
  match s with
  | EmptyString => None
  | String c s' =>
      if Ascii.eqb c "("%char then Some 0
      else option_map S (first_paren s')
  end.

(** The text strictly between position [i] and the final two characters:
    the characters at the positions [p] with [i < p < length s - 2]. *)
Definition between (i : nat) (s : string) : string :=
  String.substring (S i) (String.length s - 2 - S i) s.

(** The text of the warning about an unexpected wrapper. *)
Definition wrapper_warning (text : string) : string :=
  "Received JSONP response with callback name "
    ++ String.substring 0 10 text ++ ".. which is not expected.".

(** A log call that opens the processing of a row in [main]. *)
Definition row_start (e : event) : bool :=
  match e with
  | Log INFO msg => String.prefix "Processing row: " msg
  | _ => false
  end.

Definition is_sleep (e : event) : bool :=
  match e with
  | Sleep _ => true
  | _ => false
  end.

(** The events inside the processing of one row: neither the opening of a
    row nor a sleep. *)
Definition inner (e : event) : bool := negb (row_start e) && negb (is_sleep e).

(** A trace of the loop in which every row, opened by its log call, is
    closed by a sleep of [secs] before anything else happens; [n] rows. *)
Inductive paced (secs : value) : nat -> list event -> Prop :=
| paced_done : paced secs 0 []
| paced_row (e : event) (body rest : list event) (n : nat) :
    row_start e = true ->
    forallb inner body = true ->
    paced secs n rest ->
    paced secs (S n) (e :: body ++ Sleep secs :: rest).

(** The same, for a loop that an exception stopped inside a row: after [n]
    closed rows, the row in progress was opened and not followed by a
    sleep. *)
Inductive paced_until_raise (secs : value) : nat -> list event -> Prop :=
| stopped_in_row (e : event) (body : list event) :
    row_start e = true ->
    forallb inner body = true ->
    paced_until_raise secs 0 (e :: body)
| stopped_later (e : event) (body rest : list event) (n : nat) :
    row_start e = true ->
    forallb inner body = true ->
    paced_until_raise secs n rest ->
    paced_until_raise secs (S n) (e :: body ++ Sleep secs :: rest).

(** Two openings of a row in a trace always have a sleep of [secs]
    between them. *)
Definition separated (secs : value) (es : list event) : Prop :=
  forall pre e1 mid e2 post,
    es = (pre ++ e1 :: mid ++ e2 :: post)%list ->
    row_start e1 = true ->
    row_start e2 = true ->
    In (Sleep secs) mid.

(** The columns of the output for input columns [cols]: nothing is added
    to a header that has the district column; otherwise the two new
    columns go last, each unless it is there already. *)
Definition output_columns (cols : list string) : list string :=
  if mem ccd cols then cols
  else (cols ++ (if mem ga cols then [] else [ga]) ++ [ccd])%list.

(** What a field of the template shows: the value printed as [str] does
    when the key is there, the empty string when it is not. *)
Definition text_or_empty (repr : value -> string) (field : option value)
  : string :=
  match field with
  | Some v => str repr v
  | None => ""
  end.

(** The world once a request was answered, and once a log call was made. *)
Definition after_get {net} (w : World net) (n : net) (url : string)
           (params : dict) : World net :=
  mkWorld n (log_level w) (trace w ++ [Get url params]) (files w).

Definition after_log {net} (w : World net) (lvl : level) (msg : string)
  : World net :=
  mkWorld (remote w) (log_level w) (trace w ++ [Log lvl msg]) (files w).

(** The body the geocoder answers with for an address, and the district
    service for a location, in a given world. *)
Definition geocode_answer {net}
           (http_get : net -> string -> dict -> net * option string)
           (w : World net) (address : string) : option string :=
  snd (http_get (remote w) geocode_url (geocode_params address)).

Definition district_answer {net}
           (http_get : net -> string -> dict -> net * option string)
           (repr : value -> string)
           (w : World net) (location : Location.t) : option string :=
  snd (http_get (remote w) district_url (district_params repr location)).

(** The payload of a JSONP body: the text after the first parenthesis and
    before the final two characters, parsed. *)
Definition jsonp_payload (json_loads : string -> option value)
           (body : string) : option value :=
  match first_paren body with
  | Some i => json_loads (between i body)
  | None => None
  end.

(** A computation is quiet when all it adds to the trace are events from
    inside the processing of a row. *)
Definition quiet {net A} (c : M (World net) A) : Prop :=
  forall w, exists es,
    trace (fst (c w)) = (trace w ++ es)%list /\ forallb inner es = true.

(** How a call that returned leaves a row: untouched when the guard
    stopped it, with both columns set when it did not. *)
Definition left_by_call (row row' : dict) : Prop :=
  (Dict.contains ccd row = true /\ row' = row)
  \/ (Dict.contains ccd row = false
      /\ exists a d, row' = Dict.set ccd d (Dict.set ga a row)).

(** The computation ends without an exception from the state [s]. *)
Definition returns {S A} (c : M S A) (s : S) : Prop :=
  exists s' a, c s = (s', Ok a).

(** ** A concrete setting *)

Module Demo.

Definition dq : string := String (Ascii.ascii_of_nat 34) EmptyString.
Definition quoted (s : string) : string := dq ++ s ++ dq.

(** JSON texts, and the values [json.loads] gives for them. *)
Definition no_candidates_json : string :=
  "{" ++ quoted "candidates" ++ ": []}".

Definition one_candidate_json : string :=
  "{" ++ quoted "candidates" ++ ": [{" ++ quoted "address" ++ ": "
    ++ quoted "301 W 2ND ST" ++ ", " ++ quoted "location" ++ ": {"
    ++ quoted "x" ++ ": 3112000, " ++ quoted "y" ++ ": 10070000}, "
    ++ quoted "score" ++ ": 100, " ++ quoted "extent" ++ ": {"
    ++ quoted "xmin" ++ ": 3111000, " ++ quoted "ymin" ++ ": 10069000, "
    ++ quoted "xmax" ++ ": 3113000, " ++ quoted "ymax" ++ ": 10071000}}]}".

Definition no_features_json : string :=
  "{" ++ quoted "features" ++ ": []}".

Definition feature_json (district : string) : string :=
  "{" ++ quoted "attributes" ++ ": {" ++ quoted "COUNCIL_DISTRICT" ++ ": "
    ++ district ++ "}}".

Definition district_7_json : string :=
  "{" ++ quoted "features" ++ ": [" ++ feature_json "7" ++ "]}".

Definition districts_3_7_json : string :=
  "{" ++ quoted "features" ++ ": [" ++ feature_json "3" ++ ", "
    ++ feature_json "7" ++ "]}".

Definition candidate : value :=
  VDict [ ("address", VStr "301 W 2ND ST");
          ("location", VDict [("x", VInt 3112000); ("y", VInt 10070000)]);
          ("score", VInt 100);
          ("extent", VDict [ ("xmin", VInt 3111000);
                             ("ymin", VInt 10069000);
                             ("xmax", VInt 3113000);
                             ("ymax", VInt 10071000) ]) ].

Definition feature (district : Z) : value :=
  VDict [("attributes", VDict [("COUNCIL_DISTRICT", VInt district)])].

Definition json_table : list (string * value) :=
  [ (no_candidates_json, VDict [("candidates", VList [])]);
    (one_candidate_json, VDict [("candidates", VList [candidate])]);
    (no_features_json, VDict [("features", VList [])]);
    (district_7_json, VDict [("features", VList [feature 7])]);
    (districts_3_7_json, VDict [("features", VList [feature 3; feature 7])]) ].

Definition json_loads (text : string) : option value :=
  Dict.lookup text json_table.

(** The JSONP wrapper the geocoder puts around its payload. *)
Definition jsonp (payload : string) : string := "callback(" ++ payload ++ ");".

(** A remote side that counts the requests it served and always answers
    the geocoder with [geo] and the district query with [dist]. *)
Definition http_get (geo dist : string) (served : nat) (url : string)
           (params : dict) : nat * option string :=
  (S served,
    if String.eqb url geocode_url then Some geo
    else if String.eqb url district_url then Some dist
    else Some "<!DOCTYPE html>").

Definition repr (v : value) : string :=
  match v with
  | VNone => "None"
  | VBool true => "True"
  | VBool false => "False"
  | VInt z => NilZero.string_of_int (Z.to_int z)
  | _ => "<object>"
  end.

Definition int_of_str (s : string) : option Z :=
  option_map Z.of_int (NilZero.int_of_string s).

Definition sleep_refuses (secs : value) : option exn :=
  match secs with
  | VInt z => if (z <? 0)%Z then Some ValueError else None
  | VFloat _ => None
  | _ => Some TypeError
  end.

Definition can_write (path : string) : bool := true.

Definition start : @World nat := mkWorld 0 WARNING [] [].

(** A member whose row was never augmented. *)
Definition fresh_row : dict :=
  [ ("first_name", VStr "Ann");
    ("last_name", VStr "Lee");
    ("address1", VStr "301 W 2nd St");
    ("city", VStr "Austin");
    ("state", VStr "TX");
    ("zip", VStr "78701") ].

(** The same member after an earlier run. *)
Definition augmented_row : dict :=
  [ ("first_name", VStr "Ann");
    ("city_council_district", VStr "9") ].

(** A row whose geocoding failed in an earlier run. *)
Definition failed_row : dict :=
  [ ("first_name", VStr "Bo");
    ("geocoded_address", VStr "");
    ("city_council_district", VStr "") ].

(** A row that carries an address column of an earlier geocoding and no
    district. *)
Definition stale_row : dict :=
  [ ("address1", VStr "nowhere");
    ("geocoded_address", VStr "12 OLD RD") ].

Definition csv_rows (rows : list dict) (path : string)
  : result (list dict) :=
  if String.eqb path "members.csv" then Ok rows else Raise OSError.

Definition args : Args := parse_args false "members.csv" "out.csv" None.

Definition loop (geo dist : string)
  : value -> list dict -> M (World nat) (list dict) :=
  process_rows nat (http_get geo dist) json_loads repr int_of_str
               sleep_refuses.

(** The program in this setting, for a geocoder that answers [geo] and a
    district service that answers [dist]. *)
Definition geocode (geo dist : string)
  : string -> M (World nat) (option GeocodedAddress.t) :=
  geocode_address nat (http_get geo dist) json_loads.

Definition add (geo dist : string) : M (World nat * dict) unit :=
  add_city_council_district nat (http_get geo dist) json_loads repr int_of_str.

Definition run (geo dist : string) (rows : list dict)
  : Args -> M (World nat) unit :=
  main nat (http_get geo dist) json_loads repr int_of_str sleep_refuses
       (csv_rows rows) can_write.

(** What the geocoder's candidate becomes. *)
Definition geocoded : GeocodedAddress.t :=
  GeocodedAddress.mk
    (VStr "301 W 2ND ST")
    (Location.mk (VInt 3112000) (VInt 10070000))
    (VInt 100)
    (Extent.mk (VInt 3111000) (VInt 10069000) (VInt 3113000) (VInt 10071000)).

End Demo.

(** ** Requests and files *)

Definition is_get (e : event) : bool :=
  match e with
  | Get _ _ => true
  | _ => false
  end.

(** The requests among some events, in their order. *)
Definition requests (es : list event) : list event := filter is_get es.

(** The events a run added to the trace, from the world before and the
    world after. *)
Definition added {net} (w w' : World net) : list event :=
  skipn (length (trace w)) (trace w').

(** A computation that sends at most [k] requests, from any world. *)
Definition sends_at_most {net A} (k : nat) (c : M (World net) A) : Prop :=
  forall w, exists es,
    trace (fst (c w)) = (trace w ++ es)%list /\ length (requests es) <= k.

(** A computation that leaves the files as they are. *)
Definition keeps_files {net A} (c : M (World net) A) : Prop :=
  forall w, files (fst (c w)) = files w.

(** A row as [csv.DictReader] builds it from the header and the fields of
    a record of the same length. *)
Definition row_of_record (cols : list string) (record : list string) : dict :=
  combine cols (map VStr record).

(** The world of [main] once the level is set and the first line is
    logged, which is before the input is read. *)
Definition loaded {net} (args : Args) (w : World net) : World net :=
  after_log (fst (basicConfig net (if verbose args then INFO else WARNING) w))
            INFO ("Data loaded from " ++ input args).

(** What [main] does once the rows are processed: the [with] block and
    the last log line. *)
Definition finish {net} (repr : value -> string) (can_write : string -> bool)
           (args : Args) (data : list dict) : M (World net) unit :=
  open_w net can_write (output args) ;;
  first <- lift_result (match data with
                        | row :: _ => Ok row
                        | [] => Raise IndexError
                        end) ;;
  writeheader net (output args) (Dict.keys first) ;;
  writerows net repr (output args) (Dict.keys first) data ;;
  logger_info net ("Augmented data written to " ++ output args).

(** The record that [DictWriter] writes for a row under given columns. *)
Definition record_of (repr : value -> string) (fieldnames : list string)
           (row : dict) : list string :=
  map (fun key => csv_field repr (Dict.get key (VStr "") row)) fieldnames.

(** No key of the row is foreign to the columns. *)
Definition fits (fieldnames : list string) (row : dict) : bool :=
  forallb (fun k => mem k fieldnames) (Dict.keys row).

(** ** The command-line test of the client: [test_api] *)

Section Tester.

Variable net : Type.
Variable http_get : net -> string -> dict -> net * option string.
Variable json_loads : string -> option value.
Variable repr : value -> string.
Variable int_of_str : string -> option Z.

(** The [repr] that [dataclass] generates. *)
Definition Location_repr (l : Location.t) : string :=
  "Location(x=" ++ repr (Location.x l) ++ ", y=" ++ repr (Location.y l)
    ++ ")".

Definition Extent_repr (e : Extent.t) : string :=
  "Extent(xmin=" ++ repr (Extent.xmin e) ++ ", ymin=" ++ repr (Extent.ymin e)
    ++ ", xmax=" ++ repr (Extent.xmax e) ++ ", ymax="
    ++ repr (Extent.ymax e) ++ ")".

Definition GeocodedAddress_repr (g : GeocodedAddress.t) : string :=
  "GeocodedAddress(address=" ++ repr (GeocodedAddress.address g)
    ++ ", location=" ++ Location_repr (GeocodedAddress.location g)
    ++ ", score=" ++ repr (GeocodedAddress.score g)
    ++ ", extent=" ++ Extent_repr (GeocodedAddress.extent g) ++ ")".

(** The state of [test_api]: the world and what was printed, one entry
    per call of [print]. *)
Definition console : Type := (World net * list string)%type.

Definition print (text : string) : M console unit :=
  fun s => ((fst s, snd s ++ [text])%list, Ok tt).

Definition in_world {A} (c : M (World net) A) : M console A :=
  fun s =>
    match c (fst s) with
    | (w, r) => ((w, snd s), r)
    end.

Definition newline : string := String (Ascii.ascii_of_nat 10) EmptyString.

Definition test_api (address : string) : M console unit :=
  in_world (basicConfig net INFO) ;;
  in_world (AustinDataService_init net http_get) ;;
  print ("Testing with address: " ++ address) ;;
  print (newline ++ "Testing geocode_address:") ;;
  geocoded <- in_world (geocode_address net http_get json_loads address) ;;
  match geocoded with
  | Some g => print (GeocodedAddress_repr g)
  | None => print "  No geocoded address found"
  end ;;
  match geocoded with
  | Some g =>
      print (newline ++ "Testing get_council_district:") ;;
      district <-
        in_world
          (get_council_district net http_get json_loads repr int_of_str
             (GeocodedAddress.location g)) ;;
      match district with
      | Some d =>
          if truthy (VInt d)
          then print ("  Council District: " ++ str repr (VInt d))
          else print "  No council district found"
      | None => print "  No council district found"
      end
  | None => ret tt
  end.

End Tester.

(** ** More concrete settings *)

Module Cases.

Definition district_0_json : string :=
  "{" ++ Demo.quoted "features" ++ ": [" ++ Demo.feature_json "0" ++ "]}".

Definition district_null_json : string :=
  "{" ++ Demo.quoted "features" ++ ": [" ++ Demo.feature_json "null" ++ "]}".

Definition district_text_json : string :=
  "{" ++ Demo.quoted "features" ++ ": ["
    ++ Demo.feature_json (Demo.quoted "7") ++ "]}".

Definition feature_of (district : value) : value :=
  VDict [("attributes", VDict [("COUNCIL_DISTRICT", district)])].

Definition json_table : list (string * value) :=
  [ (district_0_json, VDict [("features", VList [feature_of (VInt 0)])]);
    (district_null_json, VDict [("features", VList [feature_of VNone])]);
    (district_text_json,
     VDict [("features", VList [feature_of (VStr "7")])]) ].

Definition json_loads (text : string) : option value :=
  match Demo.json_loads text with
  | Some v => Some v
  | None => Dict.lookup text json_table
  end.

(** A remote side that cannot be reached. *)
Definition offline (served : nat) (url : string) (params : dict)
  : nat * option string :=
  (served, None).

(** An input that an earlier run augmented, as header and records. *)
Definition columns : list string := ["first_name"; "city_council_district"].
Definition records : list (list string) := [["Ann"; "9"]; ["Bo"; ""]].

(** [repr], with the quotes it puts around a plain text. *)
Definition repr (v : value) : string :=
  match v with
  | VStr s => "'" ++ s ++ "'"
  | _ => Demo.repr v
  end.

Definition test (geo dist : string) : string -> M (console nat) unit :=
  test_api nat (Demo.http_get geo dist) json_loads repr Demo.int_of_str.

(** [time.sleep] refuses what is negative or not a number. *)
Definition sleep_refuses (secs : value) : option exn :=
  match secs with
  | VInt z => if (z <? 0)%Z then Some ValueError else None
  | VFloat S754_nan => Some ValueError
  | VFloat (S754_infinity true) => Some ValueError
  | VFloat (S754_finite true _ _) => Some ValueError
  | VFloat _ => None
  | _ => Some TypeError
  end.

(** The geocoder's answer with one candidate, and the program for a
    district service that answers [dist]. *)
Definition geo : string := Demo.jsonp Demo.one_candidate_json.

Definition http (geo dist : string)
  : nat -> string -> dict -> nat * option string :=
  Demo.http_get geo dist.

Definition geocode (geo dist : string)
  : string -> M (World nat) (option GeocodedAddress.t) :=
  geocode_address nat (http geo dist) json_loads.

Definition district (geo dist : string)
  : Location.t -> M (World nat) (option Z) :=
  get_council_district nat (http geo dist) json_loads repr Demo.int_of_str.

Definition call (geo dist : string) : M (World nat * dict) unit :=
  add_city_council_district nat (http geo dist) json_loads repr
    Demo.int_of_str.

Definition loop (geo dist : string)
  : value -> list dict -> M (World nat) (list dict) :=
  process_rows nat (http geo dist) json_loads repr Demo.int_of_str
               sleep_refuses.

Definition run (geo dist : string) (rows : list dict)
  : Args -> M (World nat) unit :=
  main nat (http geo dist) json_loads repr Demo.int_of_str sleep_refuses
       (Demo.csv_rows rows) Demo.can_write.

(** The address of the fresh row, and the world of a run once the landing
    page was fetched. *)
Definition address : string := assemble_address repr Demo.fresh_row.

Definition ready (geo dist : string) (args : Args) : World nat :=
  fst (AustinDataService_init nat (http geo dist) (loaded args Demo.start)).

(** The command line with [--interval -1]. *)
Definition hasty : Args :=
  parse_args false "members.csv" "out.csv"
             (Some (VFloat (S754_finite true 1 0))).

End Cases.

(** * Properties *)

(** ** Dictionaries *)

Section DictFacts.
Context {V : Type}.
Implicit Types (d : list (string * V)) (k : string) (v : V).

Lemma contains_mem_keys k d : Dict.contains k d = mem k (Dict.keys d).
Proof.
  unfold Dict.contains, mem, Dict.keys.
  induction d as [|[k' v'] d IH]; simpl; [reflexivity|].
  destruct (String.eqb k k'); simpl; [reflexivity | exact IH].
Qed.

Lemma lookup_set_same k v d : Dict.lookup k (Dict.set k v d) = Some v.
Proof.
  induction d as [|[k' v'] d IH]; simpl.
  - now rewrite String.eqb_refl.
  - destruct (String.eqb k k') eqn:E; simpl.
    + now rewrite String.eqb_refl.
    + now rewrite E.
Qed.

Lemma lookup_set_other k k' v d :
  k' <> k -> Dict.lookup k' (Dict.set k v d) = Dict.lookup k' d.
Proof.
  intros Hne.
  induction d as [|[k0 v0] d IH]; simpl.
  - destruct (String.eqb_spec k' k); [contradiction | reflexivity].
  - destruct (String.eqb_spec k k0) as [->|Hk]; simpl.
    + destruct (String.eqb_spec k' k0); [contradiction | reflexivity].
    + destruct (String.eqb k' k0); [reflexivity | exact IH].
Qed.

Lemma keys_set k v d :
  Dict.keys (Dict.set k v d)
  = if Dict.contains k d then Dict.keys d else (Dict.keys d ++ [k])%list.
Proof.
  unfold Dict.contains, Dict.keys.
  induction d as [|[k' v'] d IH]; simpl; [reflexivity|].
  destruct (String.eqb_spec k k') as [->|_]; simpl; [reflexivity|].
  rewrite IH. now destruct (Dict.lookup k d).
Qed.

Lemma contains_set k k' v d :
  Dict.contains k' (Dict.set k v d)
  = (String.eqb k' k || Dict.contains k' d)%bool.
Proof.
  unfold Dict.contains.
  destruct (String.eqb_spec k' k) as [->|Hne]; simpl.
  - now rewrite lookup_set_same.
  - now rewrite lookup_set_other.
Qed.

Lemma get_lookup k v0 d :
  Dict.get k v0 d = match Dict.lookup k d with Some v => v | None => v0 end.
Proof. reflexivity. Qed.

End DictFacts.

(** ** The row-level operation *)

Section RowFacts.

Variable net : Type.
Variable http_get : net -> string -> dict -> net * option string.
Variable json_loads : string -> option value.
Variable repr : value -> string.
Variable int_of_str : string -> option Z.

#[local] Abbreviation geocode := (geocode_address net http_get json_loads).
#[local] Abbreviation district_of :=
  (get_council_district net http_get json_loads repr int_of_str).
#[local] Abbreviation add :=
  (add_city_council_district net http_get json_loads repr int_of_str).
#[local] Abbreviation info := (logger_info net).

(** The guard: a row that has the district key is returned as it came,
    and so is the world. *)
Lemma guard_skips (w : World net) (row : dict) :
  Dict.contains ccd row = true -> add (w, row) = ((w, row), Ok tt).
Proof.
  intros H. unfold add_city_council_district, bind, the_row. simpl.
  fold ccd. now rewrite H.
Qed.

(** What the call does to a row that passes the guard, case by case on
    what the two lookups answer. *)
Lemma unguarded_call (w : World net) (row : dict) :
  Dict.contains ccd row = false ->
  add (w, row)
  = match geocode (assemble_address repr row) w with
    | (w1, Raise e) => ((w1, row), Raise e)
    | (w1, Ok None) =>
        let row' := Dict.set ccd (VStr "") (Dict.set ga (VStr "") row) in
        ((fst (info ("  City Council District: "
                       ++ str repr (Dict.get ccd VNone row')) w1), row'),
         Ok tt)
    | (w1, Ok (Some g)) =>
        let row1 := Dict.set ga (GeocodedAddress.address g) row in
        let w2 :=
          fst (info ("Requesting council district for "
                       ++ str repr (GeocodedAddress.address g)) w1) in
        match district_of (GeocodedAddress.location g) w2 with
        | (w3, Raise e) => ((w3, row1), Raise e)
        | (w3, Ok district) =>
            let row' :=
              Dict.set ccd
                (match district with
                 | Some d => VInt d
                 | None => VStr "Unknown"
                 end) row1 in
            ((fst (info ("  City Council District: "
                           ++ str repr (Dict.get ccd VNone row')) w3), row'),
             Ok tt)
        end
    end.
Proof.
  intros H.
  unfold add_city_council_district, bind, the_row, on_world, setitem.
  cbv beta iota zeta delta [fst snd]. fold ccd ga. rewrite H.
  destruct (geocode (assemble_address repr row) w) as [w1 [[g|]|e]];
    try reflexivity.
  unfold logger_info at 1, emit at 1.
  cbv beta iota zeta delta [fst snd].
  destruct (district_of (GeocodedAddress.location g) _) as [w3 [district|e]];
    reflexivity.
Qed.

(** The rows a call can leave behind: the row itself, the row with the
    address column set, or the row with both columns set. *)
Lemma row_after_call (w : World net) (row : dict) :
  let '((_, row'), _) := add (w, row) in
  row' = row
  \/ (Dict.contains ccd row = false
      /\ exists a, row' = Dict.set ga a row
                   \/ exists d, row' = Dict.set ccd d (Dict.set ga a row)).
Proof.
  destruct (Dict.contains ccd row) eqn:G.
  - rewrite (guard_skips w row G). now left.
  - rewrite (unguarded_call w row G).
    destruct (geocode _ w) as [w1 [[g|]|e]]; [| | now left].
    + cbv zeta.
      destruct (district_of _ _) as [w3 [d|e]]; right; split; trivial;
        eexists; [right; eexists|left]; reflexivity.
    + right. split; trivial. eexists. right. eexists. reflexivity.
Qed.

(** C1. A row that already holds a non-empty [city_council_district] comes
    back from [add_city_council_district] exactly as it was: no key added,
    no value modified, and the world untouched as well. *)
Theorem skip_keeps_augmented_row (w : World net) (row : dict) (v : value) :
  Dict.lookup ccd row = Some v ->
  v <> VStr "" ->
  add (w, row) = ((w, row), Ok tt).
Proof.
  intros Hv _. apply guard_skips. unfold Dict.contains. now rewrite Hv.
Qed.

(** C10. A row whose [city_council_district] is present and empty is
    skipped too, because the guard tests the key and not the value: the
    call returns at once, sends no request, logs nothing, and the row is
    the same row, so it gains no [geocoded_address] key. *)
Theorem skip_tests_key_presence (w : World net) (row : dict) :
  Dict.lookup ccd row = Some (VStr "") ->
  let '((w', row'), r) := add (w, row) in
  r = Ok tt
  /\ row' = row
  /\ trace w' = trace w
  /\ remote w' = remote w
  /\ Dict.contains ga row' = Dict.contains ga row.
Proof.
  intros Hv. rewrite guard_skips.
  - repeat split.
  - unfold Dict.contains. now rewrite Hv.
Qed.

(** C3. Whatever fields a row has, [assemble_address] is the template
    [{address1} {address2}, {city}, {state}, {zip}, {country}] filled
    with the fields that are present, an absent one counting as the empty
    string. *)
Theorem assemble_address_template (row : dict) :
  assemble_address repr row
  = template (text_or_empty repr (Dict.lookup "address1" row))
             (text_or_empty repr (Dict.lookup "address2" row))
             (text_or_empty repr (Dict.lookup "city" row))
             (text_or_empty repr (Dict.lookup "state" row))
             (text_or_empty repr (Dict.lookup "zip" row))
             (text_or_empty repr (Dict.lookup "country" row)).
Proof.
  unfold assemble_address, template, text_or_empty, Dict.get.
  destruct (Dict.lookup "address1" row), (Dict.lookup "address2" row),
    (Dict.lookup "city" row), (Dict.lookup "state" row),
    (Dict.lookup "zip" row), (Dict.lookup "country" row);
    reflexivity.
Qed.

(** What the call leaves in [geocoded_address] of a row that passes the
    guard, whether the key was there or not. *)
Lemma geocoded_address_after_call (w : World net) (row : dict) :
  Dict.contains ccd row = false ->
  let '((_, row'), _) := add (w, row) in
  match snd (geocode (assemble_address repr row) w) with
  | Ok (Some g) => Dict.lookup ga row' = Some (GeocodedAddress.address g)
  | Ok None => Dict.lookup ga row' = Some (VStr "")
  | Raise _ => row' = row
  end.
Proof.
  intros G. rewrite (unguarded_call w row G).
  destruct (geocode _ w) as [w1 [[g|]|e]]; cbn [snd]; cbv zeta;
    [| |reflexivity].
  - destruct (district_of _ _) as [w3 [d|e]];
      [rewrite lookup_set_other by discriminate|]; apply lookup_set_same.
  - rewrite lookup_set_other by discriminate. apply lookup_set_same.
Qed.

(** C8, as the code has it. Whatever the call does and however it ends,
    every column of the row other than [geocoded_address] keeps its value,
    the columns keep their places, and the only keys that can be new are
    [geocoded_address] and [city_council_district]. A row that has the
    district column is left as it is, its [geocoded_address] included. In
    a row that lacks the district column, [geocoded_address] is written
    over, present or not, with the result of the geocoding: the address of
    the geocoder's candidate, or the empty string when it found none; and
    when the geocoding raises, the row is left as it was. *)
Theorem frame_of_the_call (w : World net) (row : dict) :
  let '((_, row'), _) := add (w, row) in
  (forall k, Dict.contains k row = true -> k <> ga ->
             Dict.lookup k row' = Dict.lookup k row)
  /\ (Dict.contains ccd row = true -> row' = row)
  /\ (Dict.contains ccd row = false ->
      match snd (geocode (assemble_address repr row) w) with
      | Ok (Some g) => Dict.lookup ga row' = Some (GeocodedAddress.address g)
      | Ok None => Dict.lookup ga row' = Some (VStr "")
      | Raise _ => row' = row
      end)
  /\ (forall k, Dict.contains k row' = true ->
                Dict.contains k row = true \/ k = ga \/ k = ccd)
  /\ (exists added, Dict.keys row' = (Dict.keys row ++ added)%list).
Proof.
  pose proof (row_after_call w row) as H.
  pose proof (geocoded_address_after_call w row) as Ha.
  destruct (add (w, row)) as [[w' row'] r].
  enough (Hframe :
    (forall k, Dict.contains k row = true -> k <> ga ->
               Dict.lookup k row' = Dict.lookup k row)
    /\ (Dict.contains ccd row = true -> row' = row)
    /\ (forall k, Dict.contains k row' = true ->
                  Dict.contains k row = true \/ k = ga \/ k = ccd)
    /\ (exists added, Dict.keys row' = (Dict.keys row ++ added)%list)).
  { destruct Hframe as (H1 & H2 & H4 & H5).
    split; [exact H1|]. split; [exact H2|]. split; [exact Ha|].
    split; [exact H4 | exact H5]. }
  clear Ha.
  destruct H as [->|[G [a [->|[d ->]]]]].
  - repeat split; auto. exists []. now rewrite app_nil_r.
  - repeat split.
    + intros k _ Hk. now apply lookup_set_other.
    + congruence.
    + intros k. rewrite contains_set.
      destruct (String.eqb_spec k ga); simpl; auto.
    + rewrite keys_set. destruct (Dict.contains ga row); eexists;
        [symmetry; apply app_nil_r | reflexivity].
  - repeat split.
    + intros k Hin Hk. destruct (String.eqb_spec k ccd) as [->|Hc].
      * congruence.
      * rewrite lookup_set_other by assumption. now apply lookup_set_other.
    + congruence.
    + intros k. rewrite !contains_set.
      destruct (String.eqb_spec k ccd), (String.eqb_spec k ga); simpl; auto.
    + rewrite !keys_set, contains_set, G.
      change (String.eqb ccd ga) with false. simpl.
      destruct (Dict.contains ga row); eexists;
        [reflexivity | rewrite <- app_assoc; reflexivity].
Qed.

End RowFacts.

(** ** Strings *)

Lemma index_first_paren (s : string) : String.index 0 "(" s = first_paren s.
Proof.
  induction s as [|c s IH]; [reflexivity|].
  cbn [String.index first_paren]. unfold String.prefix; fold String.prefix.
  destruct (ascii_dec "(" c) as [<-|Hc].
  - destruct s; reflexivity.
  - rewrite IH. destruct (Ascii.eqb_spec c "("); [congruence|].
    now destruct (first_paren s).
Qed.

Lemma first_paren_lt (s : string) (i : nat) :
  first_paren s = Some i -> i < String.length s.
Proof.
  revert i. induction s as [|c s IH]; intros i; simpl; [discriminate|].
  destruct (Ascii.eqb c "(").
  - intros [= <-]. lia.
  - destruct (first_paren s) as [j|]; simpl; [|discriminate].
    intros [= <-]. specialize (IH j eq_refl). lia.
Qed.

(** The position found is that of a parenthesis, and the first one. *)
Lemma first_paren_first (s : string) (i : nat) :
  first_paren s = Some i ->
  String.get i s = Some "("%char
  /\ forall j, j < i -> String.get j s <> Some "("%char.
Proof.
  revert i. induction s as [|c s IH]; intros i; simpl; [discriminate|].
  destruct (Ascii.eqb_spec c "(") as [->|Hc].
  - intros [= <-]. split; [reflexivity | intros j Hj; lia].
  - destruct (first_paren s) as [k|]; simpl; [|discriminate].
    intros [= <-]. destruct (IH k eq_refl) as [Hk Hbefore]. split; [exact Hk|].
    intros [|j] Hj; [congruence | apply Hbefore; lia].
Qed.

(** The characters of [between i s] are those of [s] at the positions
    after [i] and before the final two. *)
Lemma between_chars (s : string) (i k : nat) :
  String.get k (between i s)
  = if (k + S i <? String.length s - 2)%nat
    then String.get (k + S i) s else None.
Proof.
  unfold between. destruct (Nat.ltb_spec (k + S i) (String.length s - 2)).
  - apply String.substring_correct1. lia.
  - apply String.substring_correct2. lia.
Qed.

Lemma substring_head_min (s : string) (n : nat) :
  String.substring 0 (Nat.min (String.length s) n) s = String.substring 0 n s.
Proof.
  revert n. induction s as [|c s IH]; intros [|n]; simpl; try reflexivity.
  now rewrite IH.
Qed.

Lemma slice_head (s : string) (n : nat) :
  slice s 0 (Z.of_nat n) = String.substring 0 n s.
Proof.
  unfold slice, slice_bound. change (0 <? 0)%Z with false.
  destruct (Z.ltb_spec (Z.of_nat n) 0); [lia|]. cbv zeta.
  rewrite <- substring_head_min. f_equal; lia.
Qed.

Lemma slice_after_paren (s : string) (i : nat) :
  i < String.length s -> slice s (Z.of_nat i + 1) (-2) = between i s.
Proof.
  intros Hi. unfold slice, slice_bound, between.
  destruct (Z.ltb_spec (Z.of_nat i + 1) 0); [lia|].
  change (-2 <? 0)%Z with true. cbv zeta. f_equal; lia.
Qed.

(** ** The client *)

Section ClientFacts.

Variable net : Type.
Variable http_get : net -> string -> dict -> net * option string.
Variable json_loads : string -> option value.
Variable repr : value -> string.
Variable int_of_str : string -> option Z.

#[local] Abbreviation geocode := (geocode_address net http_get json_loads).
#[local] Abbreviation district_of :=
  (get_council_district net http_get json_loads repr int_of_str).
#[local] Abbreviation add :=
  (add_city_council_district net http_get json_loads repr int_of_str).

Lemma session_get_answered (w : World net) (url : string) (params : dict)
      (n : net) (body : string) :
  http_get (remote w) url params = (n, Some body) ->
  session_get net http_get url params w = (after_get w n url params, Ok body).
Proof. intros H. unfold session_get. now rewrite H. Qed.

(** [geocode_address] on an answered request, step by step. *)
Lemma geocode_address_answered (w : World net) (address : string) (n : net)
      (body : string) :
  http_get (remote w) geocode_url (geocode_params address) = (n, Some body) ->
  let w0 := after_get w n geocode_url (geocode_params address) in
  let w1 :=
    if startswith "callback(" body then w0
    else after_log w0 WARNING (wrapper_warning body) in
  geocode address w
  = match first_paren body with
    | None => (w1, Raise ValueError)
    | Some i =>
        match json_loads (between i body) with
        | Some data => geocoded_of_payload net address data w1
        | None => (w1, Raise JSONDecodeError)
        end
    end.
Proof.
  intros H w0 w1. unfold geocode_address, bind at 1.
  rewrite (session_get_answered _ _ _ _ _ H). fold w0.
  unfold bind at 1.
  assert (Hw :
    (if negb (startswith "callback(" body)
     then logger_warning net
            ("Received JSONP response with callback name "
               ++ slice body 0 10 ++ ".. which is not expected.")
     else ret tt) w0 = (w1, Ok tt)).
  { subst w1. destruct (startswith "callback(" body); [reflexivity|].
    simpl negb. cbv iota. change 10%Z with (Z.of_nat 10).
    rewrite slice_head. reflexivity. }
  rewrite Hw. unfold bind at 1, lift_result, str_index.
  rewrite index_first_paren.
  destruct (first_paren body) as [i|] eqn:Hi; [|reflexivity].
  rewrite (slice_after_paren body i (first_paren_lt _ _ Hi)).
  unfold bind at 1, loads.
  destruct (json_loads (between i body)); reflexivity.
Qed.

Lemma no_candidate (w : World net) (address : string) (data : value) :
  getitem data "candidates" = Ok (VList []) ->
  geocoded_of_payload net address data w
  = (after_log w INFO ("No geocoded address found for " ++ address), Ok None).
Proof.
  intros H. unfold geocoded_of_payload, bind, lift_result. now rewrite H.
Qed.

(** A geocoding that succeeds took the address of the first candidate. *)
Lemma first_candidate (w w' : World net) (address : string) (data : value)
      (candidate : value) (others : list value) (g : GeocodedAddress.t) :
  getitem data "candidates" = Ok (VList (candidate :: others)) ->
  geocoded_of_payload net address data w = (w', Ok (Some g)) ->
  w' = w /\ getitem candidate "address" = Ok (GeocodedAddress.address g).
Proof.
  intros H. unfold geocoded_of_payload, bind, lift_result. rewrite H.
  cbn [truthy getitem0].
  destruct (getitem candidate "address") as [a|]; [|discriminate].
  destruct (getitem candidate "location") as [lv|]; [|discriminate].
  destruct (Location_of lv); [|discriminate].
  destruct (getitem candidate "score"); [|discriminate].
  destruct (getitem candidate "extent") as [ev|]; [|discriminate].
  destruct (Extent_of ev); [|discriminate].
  unfold ret. intros [= <- <-]. now split.
Qed.

(** [get_council_district] on an answered request. *)
Lemma district_absent (w : World net) (location : Location.t) (n : net)
      (body : string) (data : value) :
  http_get (remote w) district_url (district_params repr location)
  = (n, Some body) ->
  json_loads body = Some data ->
  getitem data "features" = Ok (VList []) ->
  district_of location w
  = (after_get w n district_url (district_params repr location), Ok None).
Proof.
  intros H Hd Hf. unfold get_council_district, bind at 1.
  rewrite (session_get_answered _ _ _ _ _ H).
  unfold bind, loads, lift_result. rewrite Hd. unfold ret. now rewrite Hf.
Qed.

Lemma district_of_first_feature (w : World net) (location : Location.t)
      (n : net) (body : string) (data feature attributes district : value)
      (others : list value) (z : Z) :
  http_get (remote w) district_url (district_params repr location)
  = (n, Some body) ->
  json_loads body = Some data ->
  getitem data "features" = Ok (VList (feature :: others)) ->
  getitem feature "attributes" = Ok attributes ->
  getitem attributes "COUNCIL_DISTRICT" = Ok district ->
  int int_of_str district = Ok z ->
  district_of location w
  = (after_get w n district_url (district_params repr location), Ok (Some z)).
Proof.
  intros H Hd Hf Ha Hc Hz. unfold get_council_district, bind at 1.
  rewrite (session_get_answered _ _ _ _ _ H).
  unfold bind, loads, lift_result. rewrite Hd. unfold ret. rewrite Hf.
  cbn [truthy getitem0]. now rewrite Ha, Hc, Hz.
Qed.

Lemma answer_of_geocoder (w : World net) (address body : string) :
  geocode_answer http_get w address = Some body ->
  exists n,
    http_get (remote w) geocode_url (geocode_params address) = (n, Some body).
Proof.
  unfold geocode_answer.
  destruct (http_get _ _ _) as [n o]. simpl. intros ->. now exists n.
Qed.

Lemma answer_of_district_service (w : World net) (location : Location.t)
      (body : string) :
  district_answer http_get repr w location = Some body ->
  exists n,
    http_get (remote w) district_url (district_params repr location)
    = (n, Some body).
Proof.
  unfold district_answer.
  destruct (http_get _ _ _) as [n o]. simpl. intros ->. now exists n.
Qed.

(** C7. On a body that the geocoder sent, [geocode_address] tests the
    prefix [callback(]: without it a warning is logged and the call goes
    on all the same. In both cases the text handed to the JSON parser is
    the part of the body strictly between its first opening parenthesis
    and its final two characters, character for character; a body without
    a parenthesis ends the call with the [ValueError] of [str.index]. *)
Theorem jsonp_wrapper_checked_then_stripped
        (w : World net) (address : string) (n : net) (body : string) :
  http_get (remote w) geocode_url (geocode_params address) = (n, Some body) ->
  let w0 := after_get w n geocode_url (geocode_params address) in
  let w1 :=
    if startswith "callback(" body then w0
    else after_log w0 WARNING (wrapper_warning body) in
  geocode address w
  = match first_paren body with
    | None => (w1, Raise ValueError)
    | Some i =>
        match json_loads (between i body) with
        | Some data => geocoded_of_payload net address data w1
        | None => (w1, Raise JSONDecodeError)
        end
    end
  /\ forall i,
      first_paren body = Some i ->
      String.get i body = Some "("%char
      /\ (forall j, j < i -> String.get j body <> Some "("%char)
      /\ forall k,
          String.get k (between i body)
          = if (k + S i <? String.length body - 2)%nat
            then String.get (k + S i) body else None.
Proof.
  intros H w0 w1. split.
  - exact (geocode_address_answered w address n body H).
  - intros i Hi. destruct (first_paren_first body i Hi) as [Hat Hbefore].
    repeat split; trivial. intros k. apply between_chars.
Qed.

(** C5. When the payload of the geocoder's answer has an empty candidate
    list, [geocode_address] returns [None] and raises nothing, and a row
    processed with that answer gets the empty string in both
    [geocoded_address] and [city_council_district]. *)
Theorem no_candidate_gives_empty_columns
        (w : World net) (address body : string) (data : value) :
  geocode_answer http_get w address = Some body ->
  jsonp_payload json_loads body = Some data ->
  getitem data "candidates" = Ok (VList []) ->
  snd (geocode address w) = Ok None
  /\ forall row : dict,
      Dict.contains ccd row = false ->
      assemble_address repr row = address ->
      let '((_, row'), r) := add (w, row) in
      r = Ok tt
      /\ Dict.lookup ga row' = Some (VStr "")
      /\ Dict.lookup ccd row' = Some (VStr "").
Proof.
  intros Ha Hp Hc. destruct (answer_of_geocoder _ _ _ Ha) as [n Hn].
  pose proof (geocode_address_answered w address n body Hn) as Hg.
  cbv zeta in Hg. unfold jsonp_payload in Hp.
  destruct (first_paren body) as [i|]; [|discriminate].
  rewrite Hp, (no_candidate _ _ _ Hc) in Hg.
  split; [now rewrite Hg|].
  intros row G <-.
  rewrite (unguarded_call net http_get json_loads repr int_of_str w row G), Hg.
  cbv zeta. repeat split.
  - rewrite lookup_set_other by discriminate. apply lookup_set_same.
  - apply lookup_set_same.
Qed.

(** C6. When the geocoding of a row succeeds and the district service
    answers with an empty feature list, [get_council_district] returns
    [None] and the row's [city_council_district] is the string
    [Unknown]. *)
Theorem no_feature_gives_unknown
        (w w1 : World net) (row : dict) (g : GeocodedAddress.t)
        (body : string) (data : value) :
  Dict.contains ccd row = false ->
  geocode (assemble_address repr row) w = (w1, Ok (Some g)) ->
  district_answer http_get repr w1 (GeocodedAddress.location g) = Some body ->
  json_loads body = Some data ->
  getitem data "features" = Ok (VList []) ->
  (forall w2, remote w2 = remote w1 ->
              snd (district_of (GeocodedAddress.location g) w2) = Ok None)
  /\ let '((_, row'), r) := add (w, row) in
     r = Ok tt /\ Dict.lookup ccd row' = Some (VStr "Unknown").
Proof.
  intros G Hg Ha Hd Hf.
  destruct (answer_of_district_service _ _ _ Ha) as [n Hn].
  assert (Hnone : forall w2, remote w2 = remote w1 ->
            district_of (GeocodedAddress.location g) w2
            = (after_get w2 n district_url
                 (district_params repr (GeocodedAddress.location g)),
               Ok None)).
  { intros w2 Hr. apply (district_absent w2 _ n body data); trivial.
    now rewrite Hr. }
  split; [intros w2 Hr; now rewrite (Hnone w2 Hr)|].
  rewrite (unguarded_call net http_get json_loads repr int_of_str w row G), Hg.
  cbv zeta. rewrite Hnone by reflexivity.
  split; [reflexivity | apply lookup_set_same].
Qed.

(** C4, as the code has it. For a row without the district column: when
    the geocoding succeeds on a payload whose candidate list starts with
    [candidate], and the FIRST feature of the district service's answer
    has the integer 7 as its [COUNCIL_DISTRICT], the row's
    [geocoded_address] is the address of that first candidate and its
    [city_council_district] is the integer 7, which is not the string. *)
Theorem first_feature_gives_district
        (w w1 : World net) (row : dict) (body : string) (data : value)
        (candidate : value) (others : list value) (g : GeocodedAddress.t)
        (dbody : string) (ddata feature attributes : value)
        (features : list value) :
  Dict.contains ccd row = false ->
  geocode_answer http_get w (assemble_address repr row) = Some body ->
  jsonp_payload json_loads body = Some data ->
  getitem data "candidates" = Ok (VList (candidate :: others)) ->
  geocode (assemble_address repr row) w = (w1, Ok (Some g)) ->
  district_answer http_get repr w1 (GeocodedAddress.location g) = Some dbody ->
  json_loads dbody = Some ddata ->
  getitem ddata "features" = Ok (VList (feature :: features)) ->
  getitem feature "attributes" = Ok attributes ->
  getitem attributes "COUNCIL_DISTRICT" = Ok (VInt 7) ->
  let '((_, row'), r) := add (w, row) in
  r = Ok tt
  /\ (exists a, getitem candidate "address" = Ok a
                /\ Dict.lookup ga row' = Some a)
  /\ Dict.lookup ccd row' = Some (VInt 7)
  /\ Dict.lookup ccd row' <> Some (VStr "7").
Proof.
  intros G Ha Hp Hc Hg Hda Hd Hf Hat Hcd.
  destruct (answer_of_geocoder _ _ _ Ha) as [n Hn].
  pose proof (geocode_address_answered w _ n body Hn) as Hrun.
  cbv zeta in Hrun. unfold jsonp_payload in Hp.
  destruct (first_paren body) as [i|]; [|discriminate].
  rewrite Hp, Hg in Hrun. symmetry in Hrun.
  destruct (first_candidate _ _ _ _ _ _ _ Hc Hrun) as [_ Haddr].
  destruct (answer_of_district_service _ _ _ Hda) as [m Hm].
  rewrite (unguarded_call net http_get json_loads repr int_of_str w row G), Hg.
  cbv zeta.
  rewrite (district_of_first_feature _ _ m dbody ddata feature attributes
             (VInt 7) features 7%Z); trivial.
  assert (Hccd : forall d,
            Dict.lookup ccd
              (Dict.set ccd d (Dict.set ga (GeocodedAddress.address g) row))
            = Some d) by (intros; apply lookup_set_same).
  repeat split.
  - exists (GeocodedAddress.address g). split; [exact Haddr|].
    rewrite lookup_set_other by discriminate. apply lookup_set_same.
  - apply Hccd.
  - rewrite Hccd. discriminate.
Qed.

End ClientFacts.

(** ** What a computation adds to the trace *)

Section Quiet.

Variable net : Type.

Lemma quiet_lift_result {A} (r : result A) :
  quiet (@lift_result (World net) A r).
Proof. intros w. exists []. now rewrite app_nil_r. Qed.

Lemma quiet_ret {A} (a : A) : quiet (@ret (World net) A a).
Proof. exact (quiet_lift_result (Ok a)). Qed.

Lemma quiet_raise {A} (e : exn) : quiet (@raise (World net) A e).
Proof. exact (quiet_lift_result (Raise e)). Qed.

Lemma quiet_bind {A B} (c : M (World net) A) (k : A -> M (World net) B) :
  quiet c -> (forall a, quiet (k a)) -> quiet (bind c k).
Proof.
  intros Hc Hk w. unfold bind.
  destruct (Hc w) as [es [He Hes]].
  destruct (c w) as [w1 [a|e]]; simpl in He.
  - destruct (Hk a w1) as [es' [He' Hes']].
    exists (es ++ es')%list. rewrite He', He, app_assoc, forallb_app.
    now rewrite Hes, Hes'.
  - now exists es.
Qed.

Lemma quiet_emit (e : event) : inner e = true -> quiet (emit net e).
Proof. intros He w. exists [e]. simpl. now rewrite He. Qed.

Lemma quiet_warning (msg : string) : quiet (logger_warning net msg).
Proof. now apply quiet_emit. Qed.

Variable http_get : net -> string -> dict -> net * option string.

Lemma quiet_session_get (url : string) (params : dict) :
  quiet (session_get net http_get url params).
Proof.
  intros w. exists [Get url params]. unfold session_get.
  now destruct (http_get (remote w) url params) as [n [body|]].
Qed.

Variable json_loads : string -> option value.

Lemma quiet_loads (text : string) :
  quiet (@loads json_loads (World net) text).
Proof.
  unfold loads. destruct (json_loads text); [apply quiet_ret|apply quiet_raise].
Qed.

Create HintDb quiet.

#[local] Hint Resolve quiet_lift_result quiet_ret quiet_raise quiet_warning
  quiet_session_get quiet_loads : quiet.

Ltac quiet_steps :=
  repeat (apply quiet_bind; [|intros]); auto with quiet.

Lemma quiet_geocode_address (address : string) :
  quiet (geocode_address net http_get json_loads address).
Proof.
  unfold geocode_address, geocoded_of_payload. quiet_steps.
  - destruct (negb _); auto with quiet.
  - destruct (truthy _); quiet_steps. now apply quiet_emit.
Qed.

Variable repr : value -> string.
Variable int_of_str : string -> option Z.

Lemma quiet_get_council_district (location : Location.t) :
  quiet (get_council_district net http_get json_loads repr int_of_str location).
Proof.
  unfold get_council_district. quiet_steps.
  destruct (truthy _); quiet_steps.
Qed.

(** The same for the call on a row. *)
Lemma quiet_call_on_row (row : dict) :
  quiet (call_on_row net http_get json_loads repr int_of_str row).
Proof.
  intros w. unfold call_on_row.
  destruct (Dict.contains ccd row) eqn:G.
  - rewrite (guard_skips _ _ _ _ _ w row G). exists [].
    now rewrite app_nil_r.
  - rewrite (unguarded_call _ _ _ _ _ w row G).
    destruct (quiet_geocode_address (assemble_address repr row) w)
      as [es [He Hes]].
    destruct (geocode_address _ _ _ _ w) as [w1 [[g|]|e]]; simpl in He.
    + cbv zeta.
      match goal with
      | |- context [get_council_district _ _ _ _ _ ?l ?w2] =>
          destruct (quiet_get_council_district l w2) as [es' [He' Hes']];
          destruct (get_council_district _ _ _ _ _ l w2) as [w3 [d|e]]
      end; simpl in He'; simpl fst; simpl trace in *.
      * eexists. rewrite He', He, <- !app_assoc. split; [reflexivity|].
        rewrite !forallb_app, Hes, Hes'. reflexivity.
      * eexists. rewrite He', He, <- !app_assoc. split; [reflexivity|].
        rewrite !forallb_app, Hes, Hes'. reflexivity.
    + eexists. simpl. rewrite He, <- app_assoc. split; [reflexivity|].
      rewrite forallb_app, Hes. reflexivity.
    + now exists es.
Qed.

End Quiet.

(** ** The loop of [main] *)

(** An opening of a row found in a block lies after the sleep that closes
    the block. *)
Lemma opening_after_block (secs : value) (body rest l1 l2 : list event)
      (x : event) :
  forallb inner body = true ->
  row_start x = true ->
  (l1 ++ x :: l2 = body ++ Sleep secs :: rest)%list ->
  exists l, l1 = (body ++ Sleep secs :: l)%list /\ rest = (l ++ x :: l2)%list.
Proof.
  intros Hbody Hx Heq.
  apply app_eq_app in Heq. destruct Heq as [l [[H1 H2]|[H1 H2]]].
  - destruct l as [|y l]; cbn [app] in H2.
    + injection H2 as H2 _. rewrite <- H2 in Hx. discriminate Hx.
    + injection H2 as H2 H3. subst y. now exists l.
  - destruct l as [|y l]; cbn [app] in H2.
    + injection H2 as H2 _. rewrite H2 in Hx. discriminate Hx.
    + injection H2 as H2 _. subst y.
      rewrite forallb_forall in Hbody.
      assert (Hin : In x body) by (rewrite H1; apply in_elt).
      apply Hbody in Hin. unfold inner in Hin. rewrite Hx in Hin.
      discriminate Hin.
Qed.

Lemma no_opening_in_body (body l1 l2 : list event) (x : event) :
  forallb inner body = true ->
  row_start x = true ->
  body <> (l1 ++ x :: l2)%list.
Proof.
  intros Hbody Hx ->. rewrite forallb_forall in Hbody.
  specialize (Hbody x (in_elt x l1 l2)). unfold inner in Hbody.
  rewrite Hx in Hbody. discriminate Hbody.
Qed.

Lemma separated_block (secs : value) (e : event) (body rest : list event) :
  forallb inner body = true ->
  separated secs rest ->
  separated secs (e :: body ++ Sleep secs :: rest).
Proof.
  intros Hbody IH pre e1 mid e2 post Heq H1 H2.
  destruct pre as [|p pre]; cbn [app] in Heq; injection Heq as _ Heq.
  - symmetry in Heq.
    destruct (opening_after_block secs body rest mid post e2 Hbody H2 Heq)
      as [l [-> _]].
    apply in_elt.
  - symmetry in Heq.
    destruct (opening_after_block secs body rest pre _ e1 Hbody H1 Heq)
      as [l [_ Hrest]].
    exact (IH l e1 mid e2 post Hrest H1 H2).
Qed.

Lemma paced_separated (secs : value) (n : nat) (es : list event) :
  paced secs n es -> separated secs es.
Proof.
  induction 1 as [|e body rest n He Hbody _ IH].
  - intros [|p pre] e1 mid e2 post Heq; discriminate Heq.
  - now apply separated_block.
Qed.

Lemma paced_until_raise_separated (secs : value) (n : nat)
      (es : list event) :
  paced_until_raise secs n es -> separated secs es.
Proof.
  induction 1 as [e body He Hbody|e body rest n He Hbody _ IH].
  - intros pre e1 mid e2 post Heq H1 H2.
    destruct pre as [|p pre]; cbn [app] in Heq; injection Heq as _ Heq.
    + now apply no_opening_in_body in Heq.
    + now apply no_opening_in_body in Heq.
  - now apply separated_block.
Qed.

Section LoopFacts.

Variable net : Type.
Variable http_get : net -> string -> dict -> net * option string.
Variable json_loads : string -> option value.
Variable repr : value -> string.
Variable int_of_str : string -> option Z.
Variable sleep_refuses : value -> option exn.

#[local] Abbreviation call :=
  (call_on_row net http_get json_loads repr int_of_str).
#[local] Abbreviation rows_loop :=
  (process_rows net http_get json_loads repr int_of_str sleep_refuses).

(** One turn of the loop, unfolded on its three possible ends. *)
Lemma process_rows_step (secs : value) (row : dict) (rest : list dict)
      (w : World net) :
  let w0 :=
    after_log w INFO
      ("Processing row: name: "
         ++ str repr (Dict.get "first_name" VNone row) ++ " "
         ++ str repr (Dict.get "last_name" VNone row)
         ++ " address: " ++ assemble_address repr row) in
  rows_loop secs (row :: rest) w
  = match call row w0 with
    | (w1, Raise e) => (w1, Raise e)
    | (w1, Ok row') =>
        match sleep_refuses secs with
        | Some e => (w1, Raise e)
        | None =>
            match rows_loop secs rest
                    (mkWorld (remote w1) (log_level w1)
                             (trace w1 ++ [Sleep secs]) (files w1)) with
            | (w3, Ok rest') => (w3, Ok (row' :: rest'))
            | (w3, Raise e) => (w3, Raise e)
            end
        end
    end.
Proof.
  cbv zeta. cbn [process_rows]. unfold bind at 1.
  unfold logger_info at 1, emit at 1. unfold after_log.
  unfold bind at 1.
  destruct (call row _) as [w1 [row'|e]]; [|reflexivity].
  unfold bind at 1, time_sleep.
  destruct (sleep_refuses secs); [reflexivity|].
  unfold emit at 1. unfold bind, ret.
  destruct (rows_loop secs rest _) as [w3 [rest'|e]]; reflexivity.
Qed.

(** The trace of the loop, for whatever interval it is run with: a loop
    that ends leaves one block per row, each closed by the sleep, and a
    loop that an exception stops leaves such blocks followed by the row in
    progress. Either way two openings of a row have a sleep between
    them. *)
Lemma loop_trace (secs : value) (data : list dict) (w : World net) :
  let '(w', r) := rows_loop secs data w in
  exists es,
    trace w' = (trace w ++ es)%list
    /\ separated secs es
    /\ match r with
       | Ok data' =>
           length data' = length data /\ paced secs (length data) es
       | Raise _ =>
           exists n, n < length data /\ paced_until_raise secs n es
       end.
Proof.
  enough (H : let '(w', r) := rows_loop secs data w in
              exists es,
                trace w' = (trace w ++ es)%list
                /\ match r with
                   | Ok data' =>
                       length data' = length data
                       /\ paced secs (length data) es
                   | Raise _ =>
                       exists n,
                         n < length data /\ paced_until_raise secs n es
                   end).
  { destruct (rows_loop secs data w) as [w' [data'|e]];
      destruct H as [es [He Hp]]; exists es; (split; [exact He|]);
      (split; [|exact Hp]).
    - destruct Hp as [_ Hp]. exact (paced_separated _ _ _ Hp).
    - destruct Hp as [n [_ Hp]]. exact (paced_until_raise_separated _ _ _ Hp). }
  revert w. induction data as [|row rest IH]; intros w.
  - exists []. rewrite app_nil_r. repeat split. constructor.
  - rewrite process_rows_step. cbv zeta.
    match goal with
    | |- context [call row ?w0] =>
        destruct (quiet_call_on_row net http_get json_loads repr int_of_str
                    row w0) as [es1 [He1 Hes1]];
        destruct (call row w0) as [w1 [row'|e]]
    end; unfold after_log in He1; cbn [fst trace] in He1.
    + destruct (sleep_refuses secs) as [e|].
      * eexists. rewrite He1, <- app_assoc. split; [reflexivity|].
        exists 0. split; [cbn [length]; lia|]. cbn [app]. now constructor.
      * match goal with
        | |- context [rows_loop secs rest ?w2] =>
            specialize (IH w2); destruct (rows_loop secs rest w2)
              as [w3 [rest'|e]]
        end; destruct IH as [es3 [He3 Hrest]]; cbn [trace] in He3;
          eexists; (split;
            [rewrite He3, He1, <- !app_assoc; reflexivity | cbn [app]]).
        -- destruct Hrest as [Hlen Hp].
           split; [cbn [length]; now rewrite Hlen|]. now constructor.
        -- destruct Hrest as [n [Hn Hp]].
           exists (S n). split; [cbn [length]; lia|]. now constructor.
    + eexists. rewrite He1, <- app_assoc. split; [reflexivity|].
      exists 0. split; [cbn [length]; lia|]. cbn [app]. now constructor.
Qed.

End LoopFacts.

(** ** The written file *)

Lemma bind_ok_inv {S A B} (c : M S A) (k : A -> M S B) (s s' : S) (b : B) :
  bind c k s = (s', Ok b) ->
  exists a s1, c s = (s1, Ok a) /\ k a s1 = (s', Ok b).
Proof.
  unfold bind. destruct (c s) as [s1 [a|e]]; [|discriminate].
  intros H. now exists a, s1.
Qed.

Lemma keys_left_by_call (cols : list string) (row row' : dict) :
  Dict.keys row = cols ->
  left_by_call row row' ->
  Dict.keys row' = output_columns cols.
Proof.
  intros <- [[G ->]|[G [a [d ->]]]]; unfold output_columns;
    rewrite <- !contains_mem_keys, G; [reflexivity|].
  rewrite !keys_set, contains_set, G. change (String.eqb ccd ga) with false.
  cbn [orb]. destruct (Dict.contains ga row); [reflexivity|].
  now rewrite <- app_assoc.
Qed.

(** A column of the input, other than a rewritten [geocoded_address],
    reads the same in the row after the call. *)
Lemma get_left_by_call (row row' : dict) (c : string) (v : value) :
  left_by_call row row' ->
  Dict.contains c row = true ->
  c <> ga \/ Dict.contains ccd row = true ->
  Dict.get c v row' = Dict.get c v row.
Proof.
  intros [[G ->]|[G [a [d ->]]]] Hc Hor; [reflexivity|].
  destruct Hor as [Hga|Hccd]; [|congruence].
  unfold Dict.get. rewrite !lookup_set_other; trivial.
  intros ->. congruence.
Qed.

Section FileFacts.

Variable net : Type.
Variable repr : value -> string.

Lemma write_record_files (path : string) (record : list string)
      (w : World net) :
  write_record net path record w
  = (mkWorld (remote w) (log_level w) (trace w)
             (Dict.set path (Dict.get path [] (files w) ++ [record])%list
                       (files w)), Ok tt).
Proof. reflexivity. Qed.

Lemma writerows_ok (path : string) (fieldnames : list string)
      (rows : list dict) :
  forall (w w' : World net) (written : csv_file),
    Dict.lookup path (files w) = Some written ->
    writerows net repr path fieldnames rows w = (w', Ok tt) ->
    exists records,
      Dict.lookup path (files w') = Some (written ++ records)%list
      /\ Forall2 (fun row record =>
                    dict_to_list repr fieldnames row = Ok record)
                 rows records.
Proof.
  induction rows as [|row rows IH]; intros w w' written Hw; cbn [writerows].
  - intros [= <-]. exists []. rewrite app_nil_r. now split.
  - intros H. apply bind_ok_inv in H. destruct H as [record [w1 [Hr H]]].
    unfold lift_result in Hr. injection Hr as Hw1 Hr. subst w1.
    apply bind_ok_inv in H. destruct H as [[] [w2 [Hrec H]]].
    rewrite write_record_files in Hrec. injection Hrec as Hw2. subst w2.
    apply IH with (written := (written ++ [record])%list) in H.
    + destruct H as [records [Hf Hall]]. exists (record :: records). split.
      * rewrite Hf, <- app_assoc. reflexivity.
      * now constructor.
    + cbn [files]. rewrite lookup_set_same. unfold Dict.get, csv_file in *.
      now rewrite Hw.
Qed.

End FileFacts.

(** ** [main] *)

Section MainFacts.

Variable net : Type.
Variable http_get : net -> string -> dict -> net * option string.
Variable json_loads : string -> option value.
Variable repr : value -> string.
Variable int_of_str : string -> option Z.
Variable sleep_refuses : value -> option exn.
Variable csv_rows : string -> result (list dict).
Variable can_write : string -> bool.

#[local] Abbreviation call :=
  (call_on_row net http_get json_loads repr int_of_str).
#[local] Abbreviation rows_loop :=
  (process_rows net http_get json_loads repr int_of_str sleep_refuses).
#[local] Abbreviation run :=
  (main net http_get json_loads repr int_of_str sleep_refuses csv_rows
        can_write).

Lemma call_returned (row row' : dict) (w w' : World net) :
  call row w = (w', Ok row') -> left_by_call row row'.
Proof.
  unfold call_on_row, left_by_call.
  destruct (Dict.contains ccd row) eqn:G.
  - rewrite (guard_skips _ _ _ _ _ w row G). intros [= _ <-]. now left.
  - rewrite (unguarded_call _ _ _ _ _ w row G).
    destruct (geocode_address _ _ _ _ w) as [w1 [[g|]|e]];
      [| |discriminate]; cbv zeta.
    + destruct (get_council_district _ _ _ _ _ _ _) as [w3 [d|e]];
        [|discriminate].
      intros [= _ <-]. right. split; trivial. now eexists _, _.
    + intros [= _ <-]. right. split; trivial. now eexists _, _.
Qed.

Lemma process_rows_returned (secs : value) (data : list dict) :
  forall (w w' : World net) (data' : list dict),
    rows_loop secs data w = (w', Ok data') ->
    Forall2 left_by_call data data'.
Proof.
  induction data as [|row rest IH]; intros w w' data'.
  - intros [= _ <-]. constructor.
  - rewrite process_rows_step. cbv zeta.
    destruct (call row _) as [w1 [row'|e]] eqn:Hcall; [|discriminate].
    destruct (sleep_refuses secs); [discriminate|].
    destruct (rows_loop secs rest _) as [w3 [rest'|e]] eqn:Hrest;
      [|discriminate].
    intros [= _ <-]. constructor.
    + exact (call_returned _ _ _ _ Hcall).
    + exact (IH _ _ _ Hrest).
Qed.

Lemma keys_after_loop (cols : list string) (data data' : list dict) :
  Forall2 left_by_call data data' ->
  Forall (fun row => Dict.keys row = cols) data ->
  Forall (fun row' => Dict.keys row' = output_columns cols) data'.
Proof.
  induction 1 as [|row row' rest rest' Hrow _ IH]; intros Hcols;
    constructor; inversion Hcols; subst; auto.
  now apply keys_left_by_call with (row := row).
Qed.

(** What a record of the output holds for a row of the input. *)
Lemma record_of_row (cols : list string) (row row' : dict)
      (record : list string) :
  Dict.keys row = cols ->
  left_by_call row row' ->
  dict_to_list repr (output_columns cols) row' = Ok record ->
  length record = length (output_columns cols)
  /\ forall j c,
      nth_error cols j = Some c ->
      c <> ga \/ mem ccd cols = true ->
      nth_error record j
      = Some (csv_field repr (Dict.get c (VStr "") row)).
Proof.
  intros Hk Hl. unfold dict_to_list.
  destruct (forallb _ _); [|discriminate]. intros [= <-].
  split; [apply length_map|].
  intros j c Hj Hor.
  assert (Hin : Dict.contains c row = true).
  { rewrite contains_mem_keys, Hk. unfold mem. apply existsb_exists.
    exists c. split; [eapply nth_error_In; eassumption|apply String.eqb_refl]. }
  assert (Hout : nth_error (output_columns cols) j = Some c).
  { unfold output_columns. destruct (mem ccd cols); [exact Hj|].
    rewrite nth_error_app1; [exact Hj|].
    apply nth_error_Some. congruence. }
  rewrite nth_error_map, Hout. cbn [option_map].
  rewrite (get_left_by_call row row' c (VStr "") Hl Hin); [reflexivity|].
  destruct Hor as [?|Hm]; [now left|right].
  now rewrite contains_mem_keys, Hk.
Qed.

(** What a completed run has written. *)
Lemma written_when_completed
        (args : Args) (w w' : World net) (data : list dict)
        (cols : list string) :
  csv_rows (input args) = Ok data ->
  data <> [] ->
  Forall (fun row => Dict.keys row = cols) data ->
  run args w = (w', Ok tt) ->
  exists records,
    Dict.lookup (output args) (files w') = Some (output_columns cols :: records)
    /\ length records = length data
    /\ Forall2
         (fun row record =>
            length record = length (output_columns cols)
            /\ forall j c,
                nth_error cols j = Some c ->
                c <> ga \/ mem ccd cols = true ->
                nth_error record j
                = Some (csv_field repr (Dict.get c (VStr "") row)))
         data records.
Proof.
  intros Hcsv Hne Hcols Hrun. unfold main in Hrun.
  apply bind_ok_inv in Hrun. destruct Hrun as [[] [wa [_ Hrun]]].
  apply bind_ok_inv in Hrun. destruct Hrun as [[] [wb [_ Hrun]]].
  apply bind_ok_inv in Hrun. destruct Hrun as [data0 [wc [Hread Hrun]]].
  unfold read_csv, lift_result in Hread. rewrite Hcsv in Hread.
  injection Hread as _ <-.
  apply bind_ok_inv in Hrun. destruct Hrun as [[] [wd [_ Hrun]]].
  apply bind_ok_inv in Hrun. destruct Hrun as [data' [we [Hloop Hrun]]].
  apply process_rows_returned in Hloop.
  apply bind_ok_inv in Hrun. destruct Hrun as [[] [wf [Hopen Hrun]]].
  apply bind_ok_inv in Hrun. destruct Hrun as [first [wg [Hfirst Hrun]]].
  apply bind_ok_inv in Hrun. destruct Hrun as [[] [wh [Hhead Hrun]]].
  apply bind_ok_inv in Hrun. destruct Hrun as [[] [wi [Hrows Hrun]]].
  unfold logger_info, emit in Hrun. injection Hrun as <-. cbn [files].
  (* the rows after the loop all have the columns of the output *)
  pose proof (keys_after_loop cols data data' Hloop Hcols) as Hkeys.
  destruct data' as [|row0 rest']; [discriminate|].
  unfold lift_result in Hfirst. injection Hfirst as <- <-.
  assert (Hfields : Dict.keys row0 = output_columns cols)
    by now inversion Hkeys.
  rewrite Hfields in Hhead, Hrows.
  (* the file: emptied, then the header, then the records *)
  unfold open_w in Hopen. destruct (can_write (output args)); [|discriminate].
  unfold write_file in Hopen. injection Hopen as <-.
  unfold writeheader in Hhead. rewrite write_record_files in Hhead.
  injection Hhead as <-.
  eapply writerows_ok with (written := [output_columns cols]) in Hrows.
  2:{ cbn [files]. rewrite lookup_set_same. unfold Dict.get, csv_file in *.
      now rewrite lookup_set_same. }
  destruct Hrows as [records [Hfile Hall]].
  exists records. split; [exact Hfile|].
  assert (Hpair : Forall2
            (fun row record =>
               exists row', left_by_call row row'
                            /\ dict_to_list repr (output_columns cols) row'
                               = Ok record) data records).
  { clear - Hloop Hall. revert records Hall.
    induction Hloop; intros records Hall; inversion Hall; subst;
      constructor; eauto. }
  split.
  - clear - Hpair. induction Hpair; simpl; congruence.
  - clear - Hpair Hcols. induction Hpair; constructor.
    + destruct H as [row' [Hl Hd]]. inversion Hcols; subst.
      eapply record_of_row; eauto.
    + inversion Hcols; subst. auto.
Qed.


Lemma forallb_mem_self (l : list string) :
  forallb (fun k => mem k l) l = true.
Proof.
  apply forallb_forall. intros k Hk. unfold mem. apply existsb_exists.
  exists k. split; [exact Hk | apply String.eqb_refl].
Qed.

(** Rows that all have the columns of the header are all written. *)
Lemma writerows_returns (path : string) (fieldnames : list string)
      (rows : list dict) :
  Forall (fun row => Dict.keys row = fieldnames) rows ->
  forall w : World net, returns (writerows net repr path fieldnames rows) w.
Proof.
  unfold returns.
  induction 1 as [|row rows Hrow _ IH]; intros w; cbn [writerows].
  - now exists w, tt.
  - unfold bind at 1, lift_result, dict_to_list.
    rewrite Hrow, forallb_mem_self. unfold bind at 1.
    rewrite write_record_files. apply IH.
Qed.

(** C2, as the code has it. Take a non-empty input whose rows all have
    the columns [cols] of the header. Once the landing page is fetched and
    the loop over the rows ends without an exception, and the output file
    can be opened, [main] completes: the writer rejects no row. It writes
    the header and one record per row, in the order of the input. The
    header is [output_columns cols]: the input columns in their order,
    followed by those of [geocoded_address] and [city_council_district]
    that the input lacks, and by nothing at all when the input already has
    [city_council_district], every row being skipped then. Each record
    repeats the fields of its row, a rewritten [geocoded_address] apart. *)
Theorem written_output_shape
        (args : Args) (w : World net) (data : list dict)
        (cols : list string) :
  let w0 :=
    after_log (fst (basicConfig net (if verbose args then INFO else WARNING)
                                w))
              INFO ("Data loaded from " ++ input args) in
  let w1 := fst (AustinDataService_init net http_get w0) in
  csv_rows (input args) = Ok data ->
  data <> [] ->
  Forall (fun row => Dict.keys row = cols) data ->
  returns (AustinDataService_init net http_get) w0 ->
  returns (rows_loop (interval args) data) w1 ->
  can_write (output args) = true ->
  exists w' records,
    run args w = (w', Ok tt)
    /\ Dict.lookup (output args) (files w')
       = Some (output_columns cols :: records)
    /\ length records = length data
    /\ Forall2
         (fun row record =>
            length record = length (output_columns cols)
            /\ forall j c,
                nth_error cols j = Some c ->
                c <> ga \/ mem ccd cols = true ->
                nth_error record j
                = Some (csv_field repr (Dict.get c (VStr "") row)))
         data records.
Proof.
  intros w0 w1 Hcsv Hne Hcols [wi [[] Hinit]] [w2 [data' Hloop]] Hcan.
  assert (Hw1 : w1 = wi) by (subst w1; now rewrite Hinit). subst wi.
  assert (Hrun : returns (run args) w).
  { unfold returns, main. unfold bind at 1. cbn [basicConfig].
    unfold bind at 1. unfold logger_info at 1, emit at 1.
    unfold bind at 1, read_csv, lift_result at 1. rewrite Hcsv.
    unfold bind at 1.
    match goal with
    | |- context [AustinDataService_init net http_get ?x] => change x with w0
    end.
    rewrite Hinit.
    unfold bind at 1. rewrite Hloop.
    unfold bind at 1, open_w. rewrite Hcan. cbn [write_file].
    pose proof (process_rows_returned _ _ _ _ _ Hloop) as Hshape.
    pose proof (keys_after_loop cols data data' Hshape Hcols) as Hkeys.
    destruct Hshape as [|row row0 rest rest' Hrow Hrest]; [contradiction|].
    unfold bind at 1, lift_result at 1.
    unfold bind at 1, writeheader. rewrite write_record_files.
    assert (Hfirst : Dict.keys row0 = output_columns cols)
      by now inversion Hkeys.
    rewrite <- Hfirst in Hkeys.
    match goal with
    | |- context [bind (writerows _ _ ?p ?f ?r) _ ?w3] =>
        destruct (writerows_returns p f r Hkeys w3) as [w4 [[] Hw]]
    end.
    unfold bind at 1. rewrite Hw. now eexists _, _. }
  destruct Hrun as [w' [[] Hrun]]. exists w'.
  destruct (written_when_completed args w w' data cols Hcsv Hne Hcols Hrun)
    as [records Hrec].
  exists records. split; [exact Hrun | exact Hrec].
Qed.

End MainFacts.

(** ** Concrete runs *)

(** A row augmented by an earlier run goes through untouched. *)
Lemma skip_keeps_augmented_row_run :
  Demo.add (Demo.jsonp Demo.one_candidate_json) Demo.district_7_json
           (Demo.start, Demo.augmented_row)
  = ((Demo.start, Demo.augmented_row), Ok tt).
Proof.
  apply (skip_keeps_augmented_row nat
           (Demo.http_get (Demo.jsonp Demo.one_candidate_json)
                          Demo.district_7_json)
           Demo.json_loads Demo.repr Demo.int_of_str
           Demo.start Demo.augmented_row (VStr "9"));
    [reflexivity | discriminate].
Defined.

(** A row whose earlier geocoding failed is not tried again. *)
Lemma skip_tests_key_presence_run :
  let '((w', row'), r) :=
    Demo.add (Demo.jsonp Demo.one_candidate_json) Demo.district_7_json
             (Demo.start, Demo.failed_row) in
  r = Ok tt
  /\ row' = Demo.failed_row
  /\ trace w' = trace Demo.start
  /\ remote w' = remote Demo.start
  /\ Dict.contains ga row' = Dict.contains ga Demo.failed_row.
Proof.
  apply (skip_tests_key_presence nat
           (Demo.http_get (Demo.jsonp Demo.one_candidate_json)
                          Demo.district_7_json)
           Demo.json_loads Demo.repr Demo.int_of_str
           Demo.start Demo.failed_row).
  reflexivity.
Defined.

(** An unknown address: no candidate, two empty columns. *)
Lemma no_candidate_run :
  snd (Demo.geocode (Demo.jsonp Demo.no_candidates_json) Demo.no_features_json
         (assemble_address Demo.repr Demo.fresh_row) Demo.start)
  = Ok None
  /\ forall row : dict,
      Dict.contains ccd row = false ->
      assemble_address Demo.repr row
      = assemble_address Demo.repr Demo.fresh_row ->
      let '((_, row'), r) :=
        Demo.add (Demo.jsonp Demo.no_candidates_json) Demo.no_features_json
                 (Demo.start, row) in
      r = Ok tt
      /\ Dict.lookup ga row' = Some (VStr "")
      /\ Dict.lookup ccd row' = Some (VStr "").
Proof.
  apply (no_candidate_gives_empty_columns nat
           (Demo.http_get (Demo.jsonp Demo.no_candidates_json)
                          Demo.no_features_json)
           Demo.json_loads Demo.repr Demo.int_of_str Demo.start
           (assemble_address Demo.repr Demo.fresh_row)
           (Demo.jsonp Demo.no_candidates_json)
           (VDict [("candidates", VList [])]));
    vm_compute; reflexivity.
Defined.

(** A geocoded address outside every district. *)
Lemma no_feature_run :
  (forall w2,
      remote w2 = 1 ->
      snd (get_council_district nat
             (Demo.http_get (Demo.jsonp Demo.one_candidate_json)
                            Demo.no_features_json)
             Demo.json_loads Demo.repr Demo.int_of_str
             (GeocodedAddress.location Demo.geocoded) w2) = Ok None)
  /\ let '((_, row'), r) :=
       Demo.add (Demo.jsonp Demo.one_candidate_json) Demo.no_features_json
                (Demo.start, Demo.fresh_row) in
     r = Ok tt /\ Dict.lookup ccd row' = Some (VStr "Unknown").
Proof.
  apply (no_feature_gives_unknown nat
           (Demo.http_get (Demo.jsonp Demo.one_candidate_json)
                          Demo.no_features_json)
           Demo.json_loads Demo.repr Demo.int_of_str Demo.start
           (fst (Demo.geocode (Demo.jsonp Demo.one_candidate_json)
                   Demo.no_features_json
                   (assemble_address Demo.repr Demo.fresh_row) Demo.start))
           Demo.fresh_row Demo.geocoded Demo.no_features_json
           (VDict [("features", VList [])]));
    vm_compute; reflexivity.
Defined.

(** A geocoded address in district 7. *)
Lemma district_7_run :
  let '((_, row'), r) :=
    Demo.add (Demo.jsonp Demo.one_candidate_json) Demo.district_7_json
             (Demo.start, Demo.fresh_row) in
  r = Ok tt
  /\ (exists a, getitem Demo.candidate "address" = Ok a
                /\ Dict.lookup ga row' = Some a)
  /\ Dict.lookup ccd row' = Some (VInt 7)
  /\ Dict.lookup ccd row' <> Some (VStr "7").
Proof.
  apply (first_feature_gives_district nat
           (Demo.http_get (Demo.jsonp Demo.one_candidate_json)
                          Demo.district_7_json)
           Demo.json_loads Demo.repr Demo.int_of_str Demo.start
           (fst (Demo.geocode (Demo.jsonp Demo.one_candidate_json)
                   Demo.district_7_json
                   (assemble_address Demo.repr Demo.fresh_row) Demo.start))
           Demo.fresh_row (Demo.jsonp Demo.one_candidate_json)
           (VDict [("candidates", VList [Demo.candidate])])
           Demo.candidate [] Demo.geocoded Demo.district_7_json
           (VDict [("features", VList [Demo.feature 7])])
           (Demo.feature 7)
           (VDict [("COUNCIL_DISTRICT", VInt 7)]) []);
    vm_compute; reflexivity.
Defined.

(** C4, refuted as stated: the district service answers with two features,
    the second of which has district 7; the geocoding succeeded; the row
    gets the district of the first feature, 3. *)
Lemma second_feature_is_ignored :
  let '((_, row'), r) :=
    Demo.add (Demo.jsonp Demo.one_candidate_json) Demo.districts_3_7_json
             (Demo.start, Demo.fresh_row) in
  Dict.contains ccd Demo.fresh_row = false
  /\ Demo.json_loads Demo.districts_3_7_json
     = Some (VDict [("features", VList [Demo.feature 3; Demo.feature 7])])
  /\ getitem (Demo.feature 7) "attributes"
     = Ok (VDict [("COUNCIL_DISTRICT", VInt 7)])
  /\ r = Ok tt
  /\ Dict.lookup ccd row' = Some (VInt 3)
  /\ Dict.lookup ccd row' <> Some (VInt 7).
Proof. vm_compute. repeat split; discriminate. Qed.

(** C8, refuted as stated: a row that has a [geocoded_address] and no
    district loses that address when the geocoder finds no candidate. *)
Lemma stale_address_is_overwritten :
  let '((_, row'), _) :=
    Demo.add (Demo.jsonp Demo.no_candidates_json) Demo.no_features_json
             (Demo.start, Demo.stale_row) in
  ~ (forall k, Dict.contains k Demo.stale_row = true ->
               Dict.lookup k row' = Dict.lookup k Demo.stale_row).
Proof.
  vm_compute. intros H. specialize (H ga eq_refl). discriminate H.
Qed.

(** A body that lacks the wrapper: the warning, then the strip all the
    same. *)
Lemma unexpected_wrapper_run :
  let body := "cb(" ++ Demo.no_candidates_json ++ ");" in
  let address := assemble_address Demo.repr Demo.fresh_row in
  let w0 := after_get Demo.start 1 geocode_url (geocode_params address) in
  let w1 := after_log w0 WARNING (wrapper_warning body) in
  Demo.geocode body Demo.no_features_json address Demo.start
  = match Demo.json_loads Demo.no_candidates_json with
    | Some data => geocoded_of_payload nat address data w1
    | None => (w1, Raise JSONDecodeError)
    end.
Proof.
  exact (proj1 (jsonp_wrapper_checked_then_stripped nat
                  (Demo.http_get ("cb(" ++ Demo.no_candidates_json ++ ");")
                                 Demo.no_features_json)
                  Demo.json_loads Demo.start
                  (assemble_address Demo.repr Demo.fresh_row) 1
                  ("cb(" ++ Demo.no_candidates_json ++ ");") eq_refl)).
Defined.

(** C2, refuted as stated: an input that already has the district column
    is written back with its two columns, no column appended. *)
Lemma augmented_input_gets_no_column :
  let '(w', r) :=
    Demo.run (Demo.jsonp Demo.one_candidate_json) Demo.district_7_json
             [Demo.augmented_row] Demo.args Demo.start in
  r = Ok tt
  /\ Dict.lookup "out.csv" (files w')
     = Some [["first_name"; "city_council_district"]; ["Ann"; "9"]]
  /\ ["first_name"; "city_council_district"]
     <> (Dict.keys Demo.augmented_row ++ [ga; ccd])%list.
Proof. vm_compute. repeat split. discriminate. Qed.

(** Two fresh rows, written with the two new columns. *)
Lemma written_output_run :
  exists w' records,
    Demo.run (Demo.jsonp Demo.one_candidate_json) Demo.district_7_json
             [Demo.fresh_row; Demo.fresh_row] Demo.args Demo.start
    = (w', Ok tt)
    /\ Dict.lookup "out.csv" (files w')
       = Some (output_columns (Dict.keys Demo.fresh_row) :: records)
    /\ length records = 2
    /\ Forall2
         (fun row record =>
            length record = length (output_columns (Dict.keys Demo.fresh_row))
            /\ forall j c,
                nth_error (Dict.keys Demo.fresh_row) j = Some c ->
                c <> ga \/ mem ccd (Dict.keys Demo.fresh_row) = true ->
                nth_error record j
                = Some (csv_field Demo.repr (Dict.get c (VStr "") row)))
         [Demo.fresh_row; Demo.fresh_row] records.
Proof.
  apply (written_output_shape nat
           (Demo.http_get (Demo.jsonp Demo.one_candidate_json)
                          Demo.district_7_json)
           Demo.json_loads Demo.repr Demo.int_of_str Demo.sleep_refuses
           (Demo.csv_rows [Demo.fresh_row; Demo.fresh_row]) Demo.can_write
           Demo.args Demo.start
           [Demo.fresh_row; Demo.fresh_row] (Dict.keys Demo.fresh_row)).
  - reflexivity.
  - discriminate.
  - repeat constructor.
  - eexists _, _. reflexivity.
  - eexists _, _. vm_compute. reflexivity.
  - reflexivity.
Defined.

(** The address of a row that has neither a second address line nor a
    country. *)
Lemma assemble_address_run :
  assemble_address Demo.repr Demo.fresh_row
  = "301 W 2nd St , Austin, TX, 78701, ".
Proof.
  rewrite (assemble_address_template Demo.repr Demo.fresh_row).
  reflexivity.
Defined.

(** The frame of the call on the row with a stale address: the address
    of the candidate replaces it. *)
Lemma frame_of_the_call_run :
  let '((_, row'), _) :=
    Demo.add (Demo.jsonp Demo.one_candidate_json) Demo.no_features_json
             (Demo.start, Demo.stale_row) in
  (forall k, Dict.contains k Demo.stale_row = true -> k <> ga ->
             Dict.lookup k row' = Dict.lookup k Demo.stale_row)
  /\ (Dict.contains ccd Demo.stale_row = true -> row' = Demo.stale_row)
  /\ (Dict.contains ccd Demo.stale_row = false ->
      Dict.lookup ga row' = Some (VStr "301 W 2ND ST"))
  /\ (forall k, Dict.contains k row' = true ->
                Dict.contains k Demo.stale_row = true \/ k = ga \/ k = ccd)
  /\ (exists added,
        Dict.keys row' = (Dict.keys Demo.stale_row ++ added)%list).
Proof.
  exact (frame_of_the_call nat
           (Demo.http_get (Demo.jsonp Demo.one_candidate_json)
                          Demo.no_features_json)
           Demo.json_loads Demo.repr Demo.int_of_str
           Demo.start Demo.stale_row).
Defined.

(** * Further properties of the code *)

(** ** The call on a row, once more *)

Section RowMore.

Variable net : Type.
Variable http_get : net -> string -> dict -> net * option string.
Variable json_loads : string -> option value.
Variable repr : value -> string.
Variable int_of_str : string -> option Z.

#[local] Abbreviation geocode := (geocode_address net http_get json_loads).
#[local] Abbreviation district_of :=
  (get_council_district net http_get json_loads repr int_of_str).
#[local] Abbreviation add :=
  (add_city_council_district net http_get json_loads repr int_of_str).

Lemma add_returned (w w' : World net) (row row' : dict) (u : unit) :
  add (w, row) = ((w', row'), Ok u) -> left_by_call row row'.
Proof.
  intros H.
  apply (call_returned net http_get json_loads repr int_of_str row row' w w').
  unfold call_on_row. now rewrite H.
Qed.

Lemma get_set_other (k k' : string) (v v0 : value) (d : dict) :
  k' <> k -> Dict.get k' v0 (Dict.set k v d) = Dict.get k' v0 d.
Proof. intros H. unfold Dict.get. now rewrite lookup_set_other. Qed.

(** X1. [add_city_council_district] is idempotent on its result: the row a
    call returned is left alone by any later call, whatever the services
    would answer then, and no request is sent for it. *)
Theorem second_call_is_skipped
        (w w' w2 : World net) (row row' : dict) :
  add (w, row) = ((w', row'), Ok tt) ->
  add (w2, row') = ((w2, row'), Ok tt).
Proof.
  intros H. apply guard_skips.
  destruct (add_returned _ _ _ _ _ H) as [[G ->]|[_ [a [d ->]]]]; trivial.
  unfold Dict.contains. now rewrite lookup_set_same.
Qed.

(** X2. What a returned call stored in a row that had no district column:
    after no geocoding, two empty strings; after a geocoding, its address
    and either an integer or [Unknown]. So the district column is the
    empty string exactly when the geocoder found nothing. *)
Theorem returned_call_outcome
        (w w' : World net) (row row' : dict) :
  Dict.contains ccd row = false ->
  add (w, row) = ((w', row'), Ok tt) ->
  match snd (geocode (assemble_address repr row) w) with
  | Ok None =>
      Dict.lookup ga row' = Some (VStr "")
      /\ Dict.lookup ccd row' = Some (VStr "")
  | Ok (Some g) =>
      Dict.lookup ga row' = Some (GeocodedAddress.address g)
      /\ (Dict.lookup ccd row' = Some (VStr "Unknown")
          \/ exists z, Dict.lookup ccd row' = Some (VInt z))
      /\ Dict.lookup ccd row' <> Some (VStr "")
  | Raise _ => False
  end.
Proof.
  intros G. rewrite (unguarded_call _ _ _ _ _ w row G).
  destruct (geocode _ w) as [w1 [[g|]|e]]; cbn [snd]; [| |discriminate].
  - cbv zeta. destruct (district_of _ _) as [w3 [d|e]]; [|discriminate].
    intros [= _ <-]. rewrite lookup_set_same.
    rewrite lookup_set_other by discriminate. rewrite lookup_set_same.
    split; [reflexivity|].
    destruct d as [z|]; split; try discriminate; eauto.
  - cbv zeta. intros [= _ <-]. rewrite lookup_set_same.
    rewrite lookup_set_other by discriminate. now rewrite lookup_set_same.
Qed.

(** X3. A call that raises has not written the district: the row is as it
    came, or has the address of a geocoding whose district lookup failed,
    and in both cases it still lacks [city_council_district], so that a
    later call will try it again. *)
Theorem raising_call_writes_no_district
        (w w' : World net) (row row' : dict) (e : exn) :
  add (w, row) = ((w', row'), Raise e) ->
  Dict.contains ccd row = false
  /\ Dict.contains ccd row' = false
  /\ (row' = row
      \/ exists g,
          snd (geocode (assemble_address repr row) w) = Ok (Some g)
          /\ row' = Dict.set ga (GeocodedAddress.address g) row).
Proof.
  destruct (Dict.contains ccd row) eqn:G.
  - rewrite (guard_skips _ _ _ _ _ w row G). discriminate.
  - rewrite (unguarded_call _ _ _ _ _ w row G).
    destruct (geocode _ w) as [w1 [[g|]|e1]]; cbn [snd]; cbv zeta.
    + destruct (district_of _ _) as [w3 [d|e3]]; [discriminate|].
      intros [= _ <- _]. repeat split.
      * rewrite contains_set, G. reflexivity.
      * right. now exists g.
    + discriminate.
    + intros [= _ <- _]. repeat split; auto.
Qed.

(** X4. The address of a row does not depend on the two columns of the
    augmentation: whatever a call did to a row, and however it ended, the
    row still assembles to the same address. *)
Theorem address_survives_the_call (w : World net) (row : dict) :
  let '((_, row'), _) := add (w, row) in
  assemble_address repr row' = assemble_address repr row.
Proof.
  pose proof (row_after_call net http_get json_loads repr int_of_str w row)
    as H.
  destruct (add (w, row)) as [[w' row'] r].
  destruct H as [->|[_ [a [->|[d ->]]]]]; [reflexivity| |];
    unfold assemble_address; fold ga ccd;
    rewrite ?get_set_other by discriminate; reflexivity.
Qed.

End RowMore.

(** ** The JSONP wrapper *)

Lemma length_append (a b : string) :
  String.length (a ++ b) = String.length a + String.length b.
Proof. induction a as [|c a IH]; simpl; [reflexivity | now rewrite IH]. Qed.

Lemma first_paren_app (name rest : string) :
  first_paren name = None ->
  first_paren (name ++ String "(" rest) = Some (String.length name).
Proof.
  induction name as [|c name IH]; simpl; [reflexivity|].
  destruct (Ascii.eqb c "("); [discriminate|].
  destruct (first_paren name); [discriminate|].
  intros _. now rewrite IH.
Qed.

Lemma first_paren_absent (s : string) :
  (forall i, String.get i s <> Some "("%char) -> first_paren s = None.
Proof.
  induction s as [|c s IH]; intros H; simpl; [reflexivity|].
  destruct (Ascii.eqb_spec c "(") as [->|_].
  - now specialize (H 0).
  - rewrite IH; [reflexivity|]. intros i. exact (H (S i)).
Qed.

Lemma substring_skip (a b : string) (n m : nat) :
  String.substring (String.length a + n) m (a ++ b) = String.substring n m b.
Proof. induction a as [|c a IH]; simpl; [reflexivity | exact IH]. Qed.

Lemma substring_head (p t : string) :
  String.substring 0 (String.length p) (p ++ t) = p.
Proof.
  induction p as [|c p IH]; simpl.
  - now destruct t.
  - now rewrite IH.
Qed.

Lemma between_wrapped (name payload tail : string) :
  String.length tail = 2 ->
  between (String.length name) (name ++ String "(" (payload ++ tail))
  = payload.
Proof.
  intros Ht. unfold between.
  rewrite length_append. cbn [String.length]. rewrite length_append, Ht.
  replace (S (String.length name)) with (String.length name + 1) by lia.
  rewrite substring_skip. cbn [String.substring].
  replace (String.length name + S (String.length payload + 2) - 2
           - (String.length name + 1)) with (String.length payload) by lia.
  apply substring_head.
Qed.

Lemma prefix_cons (a c : ascii) (p s : string) :
  String.prefix (String a p) (String c s)
  = if ascii_dec a c then String.prefix p s else false.
Proof. reflexivity. Qed.

Lemma prefix_nil (s : string) : String.prefix "" s = true.
Proof. now destruct s. Qed.

(** A text starts with [p(] exactly when the name before its first
    parenthesis is [p]. *)
Lemma prefix_wrapped (p name rest : string) :
  first_paren p = None ->
  first_paren name = None ->
  String.prefix (p ++ "(") (name ++ String "(" rest) = String.eqb name p.
Proof.
  revert name. induction p as [|a p IH]; intros name Hp Hn.
  - destruct name as [|c name]; cbn [append String.eqb].
    + rewrite prefix_cons, prefix_nil. now destruct (ascii_dec "(" "(").
    + cbn [first_paren] in Hn.
      destruct (Ascii.eqb_spec c "("); [discriminate|].
      rewrite prefix_cons. destruct (ascii_dec "(" c); [congruence|].
      reflexivity.
  - cbn [first_paren] in Hp.
    destruct (Ascii.eqb_spec a "(") as [|Ha]; [discriminate|].
    destruct (first_paren p) eqn:Hp'; [discriminate|].
    destruct name as [|c name]; cbn [append String.eqb].
    + rewrite prefix_cons. destruct (ascii_dec a "("); [contradiction|].
      reflexivity.
    + cbn [first_paren] in Hn. destruct (Ascii.eqb c "("); [discriminate|].
      destruct (first_paren name) eqn:Hn'; [discriminate|].
      rewrite prefix_cons. destruct (ascii_dec a c) as [<-|Hne].
      * rewrite Ascii.eqb_refl. now apply IH.
      * destruct (Ascii.eqb_spec c a); [congruence | reflexivity].
Qed.

(** A text that starts with [callback(] has its first parenthesis. *)
Lemma prefix_has_paren (p s : string) (i : nat) :
  String.prefix p s = true -> first_paren p = Some i -> first_paren s = Some i.
Proof.
  revert s i. induction p as [|a p IH]; intros s i; [discriminate 2|].
  destruct s as [|c s]; [discriminate|].
  rewrite prefix_cons. cbn [first_paren].
  destruct (ascii_dec a c) as [<-|]; [|discriminate].
  intros Hpre. destruct (Ascii.eqb a "("); [trivial|].
  destruct (first_paren p) as [j|] eqn:Hp; [|discriminate].
  cbn [option_map]. intros [= <-]. now rewrite (IH s j Hpre eq_refl).
Qed.

Section WrapperFacts.

Variable net : Type.
Variable http_get : net -> string -> dict -> net * option string.
Variable json_loads : string -> option value.

#[local] Abbreviation geocode := (geocode_address net http_get json_loads).

(** X5. Wrapping and stripping cancel. For an answer made of a callback name
    without parenthesis, an opening parenthesis, a payload and any two
    closing characters, [str.index] finds the parenthesis after the name,
    the slice is the payload, unchanged whatever it contains, and the
    payload is what [geocode_address] parses; the warning is logged
    exactly when the name is not [callback]. *)
Theorem wrapped_payload_is_parsed
        (w : World net) (address : string) (n : net)
        (name payload tail : string) :
  let body := name ++ "(" ++ payload ++ tail in
  first_paren name = None ->
  String.length tail = 2 ->
  http_get (remote w) geocode_url (geocode_params address) = (n, Some body) ->
  let w0 := after_get w n geocode_url (geocode_params address) in
  let w1 :=
    if String.eqb name "callback" then w0
    else after_log w0 WARNING (wrapper_warning body) in
  str_index "(" body = Ok (String.length name)
  /\ slice body (Z.of_nat (String.length name) + 1) (-2) = payload
  /\ geocode address w
     = match json_loads payload with
       | Some data => geocoded_of_payload net address data w1
       | None => (w1, Raise JSONDecodeError)
       end.
Proof.
  intros body Hname Htail Hget w0 w1.
  assert (Hi : first_paren body = Some (String.length name))
    by exact (first_paren_app name (payload ++ tail) Hname).
  assert (Hb : between (String.length name) body = payload)
    by exact (between_wrapped name payload tail Htail).
  split; [|split].
  - unfold str_index. now rewrite index_first_paren, Hi.
  - rewrite slice_after_paren; [exact Hb|].
    exact (first_paren_lt _ _ Hi).
  - rewrite (geocode_address_answered net http_get json_loads w address n
               body Hget).
    assert (Hpre : startswith "callback(" body = String.eqb name "callback")
      by exact (prefix_wrapped "callback" name (payload ++ tail)
                               eq_refl Hname).
    cbv zeta. rewrite Hi, Hb, Hpre. reflexivity.
Qed.

(** X6. An answer without any opening parenthesis never reaches the parser:
    the warning is logged (such a text cannot start with [callback(]) and
    the call raises [ValueError]. *)
Theorem answer_without_parenthesis
        (w : World net) (address : string) (n : net) (body : string) :
  (forall i, String.get i body <> Some "("%char) ->
  http_get (remote w) geocode_url (geocode_params address) = (n, Some body) ->
  geocode address w
  = (after_log (after_get w n geocode_url (geocode_params address))
               WARNING (wrapper_warning body),
     Raise ValueError).
Proof.
  intros Hno Hget. apply first_paren_absent in Hno.
  rewrite (geocode_address_answered net http_get json_loads w address n
             body Hget).
  cbv zeta. rewrite Hno.
  destruct (startswith "callback(" body) eqn:Hs; [|reflexivity].
  unfold startswith in Hs.
  now rewrite (prefix_has_paren "callback(" body 8 Hs eq_refl) in Hno.
Qed.

End WrapperFacts.

(** ** Requests sent and files kept *)

Section Accounting.

Variable net : Type.

Lemma added_app (w w' : World net) (es : list event) :
  trace w' = (trace w ++ es)%list -> added w w' = es.
Proof.
  intros H. unfold added. rewrite H.
  rewrite skipn_app, skipn_all, Nat.sub_diag. reflexivity.
Qed.

Lemma sends_weaken {A} (k k' : nat) (c : M (World net) A) :
  k <= k' -> sends_at_most k c -> sends_at_most k' c.
Proof.
  intros Hk Hc w. destruct (Hc w) as [es [He Hn]]. exists es. split; [exact He|].
  lia.
Qed.

Lemma sends_lift_result {A} (r : result A) :
  sends_at_most 0 (@lift_result (World net) A r).
Proof. intros w. exists []. now rewrite app_nil_r. Qed.

Lemma sends_ret {A} (a : A) : sends_at_most 0 (@ret (World net) A a).
Proof. exact (sends_lift_result (Ok a)). Qed.

Lemma sends_raise {A} (e : exn) : sends_at_most 0 (@raise (World net) A e).
Proof. exact (sends_lift_result (Raise e)). Qed.

Lemma sends_bind {A B} (k1 k2 : nat) (c : M (World net) A)
      (k : A -> M (World net) B) :
  sends_at_most k1 c ->
  (forall a, sends_at_most k2 (k a)) ->
  sends_at_most (k1 + k2) (bind c k).
Proof.
  intros Hc Hk w. unfold bind.
  destruct (Hc w) as [es [He Hn]].
  destruct (c w) as [w1 [a|e]]; cbn [fst] in He.
  - destruct (Hk a w1) as [es' [He' Hn']].
    exists (es ++ es')%list. rewrite He', He, app_assoc. split; [reflexivity|].
    unfold requests in *. rewrite filter_app, length_app. lia.
  - exists es. split; [exact He | lia].
Qed.

Lemma sends_log (lvl : level) (msg : string) :
  sends_at_most 0 (emit net (Log lvl msg)).
Proof. intros w. now exists [Log lvl msg]. Qed.

Lemma sends_sleep (sleep_refuses : value -> option exn) (secs : value) :
  sends_at_most 0 (time_sleep net sleep_refuses secs).
Proof.
  unfold time_sleep. destruct (sleep_refuses secs); [apply sends_raise|].
  intros w. now exists [Sleep secs].
Qed.

Lemma keeps_lift_result {A} (r : result A) :
  keeps_files (@lift_result (World net) A r).
Proof. intros w. reflexivity. Qed.

Lemma keeps_bind {A B} (c : M (World net) A) (k : A -> M (World net) B) :
  keeps_files c -> (forall a, keeps_files (k a)) -> keeps_files (bind c k).
Proof.
  intros Hc Hk w. unfold bind. specialize (Hc w).
  destruct (c w) as [w1 [a|e]]; cbn [fst] in *; [|exact Hc].
  now rewrite Hk.
Qed.

Lemma keeps_emit (e : event) : keeps_files (emit net e).
Proof. intros w. reflexivity. Qed.

Lemma keeps_sleep (sleep_refuses : value -> option exn) (secs : value) :
  keeps_files (time_sleep net sleep_refuses secs).
Proof.
  unfold time_sleep. destruct (sleep_refuses secs); intros w; reflexivity.
Qed.

Variable http_get : net -> string -> dict -> net * option string.

Lemma sends_session_get (url : string) (params : dict) :
  sends_at_most 1 (session_get net http_get url params).
Proof.
  intros w. exists [Get url params]. unfold session_get.
  destruct (http_get (remote w) url params) as [n [body|]]; split;
    (reflexivity || (cbn; lia)).
Qed.

Lemma keeps_session_get (url : string) (params : dict) :
  keeps_files (session_get net http_get url params).
Proof.
  intros w. unfold session_get.
  now destruct (http_get (remote w) url params) as [n [body|]].
Qed.

Variable json_loads : string -> option value.

Lemma sends_loads (text : string) :
  sends_at_most 0 (@loads json_loads (World net) text).
Proof.
  unfold loads. destruct (json_loads text); [apply sends_ret|apply sends_raise].
Qed.

Lemma keeps_loads (text : string) :
  keeps_files (@loads json_loads (World net) text).
Proof. unfold loads. destruct (json_loads text); intros w; reflexivity. Qed.

Create HintDb effects.

#[local] Hint Resolve sends_lift_result sends_ret sends_raise sends_log
  sends_loads keeps_lift_result keeps_emit keeps_loads keeps_session_get
  : effects.

#[local] Hint Extern 1 (sends_at_most 0 (logger_info _ _)) =>
  apply sends_log : effects.
#[local] Hint Extern 1 (sends_at_most 0 (logger_warning _ _)) =>
  apply sends_log : effects.
#[local] Hint Extern 1 (keeps_files (logger_info _ _)) =>
  apply keeps_emit : effects.
#[local] Hint Extern 1 (keeps_files (logger_warning _ _)) =>
  apply keeps_emit : effects.
#[local] Hint Extern 1 (keeps_files (ret _)) =>
  apply keeps_lift_result : effects.

Ltac no_request :=
  repeat (apply (sends_bind 0 0); [|intros]); auto with effects.

Ltac files_kept :=
  repeat (apply keeps_bind; [|intros]); auto with effects.

Lemma sends_geocode_address (address : string) :
  sends_at_most 1 (geocode_address net http_get json_loads address).
Proof.
  unfold geocode_address. apply (sends_bind 1 0); [apply sends_session_get|].
  intros text. unfold geocoded_of_payload. no_request.
  - destruct (negb _); auto with effects.
  - destruct (truthy _); no_request.
Qed.

Lemma keeps_geocode_address (address : string) :
  keeps_files (geocode_address net http_get json_loads address).
Proof.
  unfold geocode_address, geocoded_of_payload. files_kept.
  - destruct (negb _); auto with effects.
  - destruct (truthy _); files_kept.
Qed.

Variable repr : value -> string.
Variable int_of_str : string -> option Z.

Lemma sends_get_council_district (location : Location.t) :
  sends_at_most 1
    (get_council_district net http_get json_loads repr int_of_str location).
Proof.
  unfold get_council_district.
  apply (sends_bind 1 0); [apply sends_session_get|].
  intros text. no_request. destruct (truthy _); no_request.
Qed.

Lemma keeps_get_council_district (location : Location.t) :
  keeps_files
    (get_council_district net http_get json_loads repr int_of_str location).
Proof.
  unfold get_council_district. files_kept. destruct (truthy _); files_kept.
Qed.

Lemma sends_init : sends_at_most 1 (AustinDataService_init net http_get).
Proof.
  unfold AustinDataService_init.
  apply (sends_bind 1 0); [apply sends_session_get | auto with effects].
Qed.

Lemma keeps_init : keeps_files (AustinDataService_init net http_get).
Proof. unfold AustinDataService_init. files_kept. Qed.

End Accounting.

(** ** [main], once more *)

Section MainMore.

Variable net : Type.
Variable http_get : net -> string -> dict -> net * option string.
Variable json_loads : string -> option value.
Variable repr : value -> string.
Variable int_of_str : string -> option Z.
Variable sleep_refuses : value -> option exn.
Variable csv_rows : string -> result (list dict).
Variable can_write : string -> bool.

#[local] Abbreviation call :=
  (call_on_row net http_get json_loads repr int_of_str).
#[local] Abbreviation rows_loop :=
  (process_rows net http_get json_loads repr int_of_str sleep_refuses).
#[local] Abbreviation init := (AustinDataService_init net http_get).
#[local] Abbreviation run :=
  (main net http_get json_loads repr int_of_str sleep_refuses csv_rows
        can_write).

(** [main], from the reading of the input on. *)
Lemma main_unfold (args : Args) (w : World net) :
  run args w
  = match csv_rows (input args) with
    | Raise e => (loaded args w, Raise e)
    | Ok data =>
        match init (loaded args w) with
        | (w1, Raise e) => (w1, Raise e)
        | (w1, Ok _) =>
            bind (rows_loop (interval args) data)
                 (finish repr can_write args) w1
        end
    end.
Proof.
  unfold main. unfold bind at 1. cbn [basicConfig].
  unfold bind at 1. unfold logger_info at 1, emit at 1.
  unfold bind at 1, read_csv, lift_result at 1.
  destruct (csv_rows (input args)) as [data|e]; [|reflexivity].
  unfold bind at 1.
  change (init ?x) with (init (loaded args w)).
  destruct (init (loaded args w)) as [w1 [[]|e]]; reflexivity.
Qed.

Lemma init_trace (w : World net) :
  trace (fst (init w))
  = (trace w ++ [Get "https://www.austintexas.gov/government" []])%list
  /\ files (fst (init w)) = files w.
Proof.
  unfold AustinDataService_init, bind, session_get.
  now destruct (http_get _ _ _) as [n [body|]].
Qed.

Lemma sends_call_on_row (row : dict) : sends_at_most 2 (call row).
Proof.
  intros w. unfold call_on_row.
  destruct (Dict.contains ccd row) eqn:G.
  - rewrite (guard_skips _ _ _ _ _ w row G). exists [].
    rewrite app_nil_r. split; [reflexivity | cbn; lia].
  - rewrite (unguarded_call _ _ _ _ _ w row G).
    destruct (sends_geocode_address net http_get json_loads
                (assemble_address repr row) w) as [es [He Hn]].
    destruct (geocode_address _ _ _ _ w) as [w1 [[g|]|e]]; cbn [fst] in He.
    + cbv zeta. unfold logger_info, emit. cbn [fst].
      match goal with
      | |- context [get_council_district _ _ _ _ _ ?l ?w2] =>
          destruct (sends_get_council_district net http_get json_loads repr
                      int_of_str l w2) as [es' [He' Hn']];
          destruct (get_council_district _ _ _ _ _ l w2) as [w3 [d|e]]
      end; cbn [fst trace] in *.
      * eexists. rewrite He', He, <- !app_assoc. split; [reflexivity|].
        unfold requests in *. rewrite !filter_app, !length_app. cbn. lia.
      * eexists. rewrite He', He, <- !app_assoc. split; [reflexivity|].
        unfold requests in *. rewrite !filter_app, !length_app. cbn. lia.
    + eexists. unfold logger_info, emit. cbn [fst trace].
      rewrite He, <- app_assoc. split; [reflexivity|].
      unfold requests in *. rewrite !filter_app, !length_app. cbn. lia.
    + exists es. split; [exact He | lia].
Qed.

Lemma keeps_call_on_row (row : dict) : keeps_files (call row).
Proof.
  intros w. unfold call_on_row.
  destruct (Dict.contains ccd row) eqn:G.
  - now rewrite (guard_skips _ _ _ _ _ w row G).
  - rewrite (unguarded_call _ _ _ _ _ w row G).
    pose proof (keeps_geocode_address net http_get json_loads
                  (assemble_address repr row) w) as Hg.
    destruct (geocode_address _ _ _ _ w) as [w1 [[g|]|e]]; cbn [fst] in Hg;
      [|exact Hg|exact Hg].
    cbv zeta.
    match goal with
    | |- context [get_council_district _ _ _ _ _ ?l ?w2] =>
        pose proof (keeps_get_council_district net http_get json_loads repr
                      int_of_str l w2) as Hd;
        destruct (get_council_district _ _ _ _ _ l w2) as [w3 [d|e]]
    end; cbn [fst] in Hd; unfold logger_info, emit in *;
      cbn [fst files] in *; congruence.
Qed.

Lemma sends_process_rows (secs : value) (data : list dict) :
  sends_at_most (2 * length data) (rows_loop secs data).
Proof.
  induction data as [|row rest IH]; cbn [process_rows].
  - apply sends_ret.
  - apply (sends_weaken _ (0 + (2 + (0 + (2 * length rest + 0)))));
      [cbn [length]; lia|].
    apply sends_bind; [apply sends_log|]. intros _.
    apply sends_bind; [apply sends_call_on_row|]. intros row'.
    apply sends_bind; [apply sends_sleep|]. intros _.
    apply sends_bind; [exact IH|]. intros rest'. apply sends_ret.
Qed.

(** Rows stopped by the guard cost no request. *)
Lemma sends_process_skipped (secs : value) (data : list dict) :
  Forall (fun row => Dict.contains ccd row = true) data ->
  sends_at_most 0 (rows_loop secs data).
Proof.
  induction 1 as [|row rest G _ IH]; cbn [process_rows].
  - apply sends_ret.
  - apply (sends_bind net 0 0); [apply sends_log|]. intros _.
    apply (sends_bind net 0 0).
    + intros w. unfold call_on_row.
      rewrite (guard_skips _ _ _ _ _ w row G). exists [].
      now rewrite app_nil_r.
    + intros row'. apply (sends_bind net 0 0); [apply sends_sleep|]. intros _.
      apply (sends_bind net 0 0); [exact IH|]. intros rest'. apply sends_ret.
Qed.

Lemma keeps_process_rows (secs : value) (data : list dict) :
  keeps_files (rows_loop secs data).
Proof.
  induction data as [|row rest IH]; cbn [process_rows].
  - intros w. reflexivity.
  - apply keeps_bind; [apply keeps_emit|]. intros _.
    apply keeps_bind; [apply keeps_call_on_row|]. intros row'.
    apply keeps_bind; [apply keeps_sleep|]. intros _.
    apply keeps_bind; [exact IH|]. intros rest' w. reflexivity.
Qed.

Lemma sends_write_record (path : string) (record : list string) :
  sends_at_most 0 (write_record net path record).
Proof. intros w. exists []. now rewrite app_nil_r. Qed.

Lemma sends_writerows (path : string) (fieldnames : list string)
      (rows : list dict) :
  sends_at_most 0 (writerows net repr path fieldnames rows).
Proof.
  induction rows as [|row rows IH]; cbn [writerows]; [apply sends_ret|].
  apply (sends_bind net 0 0); [apply sends_lift_result|]. intros record.
  apply (sends_bind net 0 0); [apply sends_write_record | intros _; exact IH].
Qed.

Lemma sends_finish (args : Args) (data : list dict) :
  sends_at_most 0 (@finish net repr can_write args data).
Proof.
  unfold finish. apply (sends_bind net 0 0).
  - unfold open_w. destruct (can_write _); [|apply sends_raise].
    intros w. exists []. now rewrite app_nil_r.
  - intros _. apply (sends_bind net 0 0); [apply sends_lift_result|].
    intros first. apply (sends_bind net 0 0); [apply sends_write_record|].
    intros _. apply (sends_bind net 0 0); [apply sends_writerows|].
    intros _. apply sends_log.
Qed.

(** The trace of [main] when the input could be read: the first log line,
    the request for the landing page, and the requests of the loop. *)
Lemma main_trace (args : Args) (w : World net) (data : list dict) (k : nat) :
  csv_rows (input args) = Ok data ->
  sends_at_most k (rows_loop (interval args) data) ->
  exists es,
    added w (fst (run args w))
    = Log INFO ("Data loaded from " ++ input args)
        :: Get "https://www.austintexas.gov/government" [] :: es
    /\ length (requests es) <= k.
Proof.
  intros Hcsv Hloop. rewrite main_unfold, Hcsv.
  destruct (init_trace (loaded args w)) as [Hinit _].
  destruct (init (loaded args w)) as [w1 [[]|e]]; cbn [fst] in Hinit.
  - destruct (sends_bind net k 0 _ _ Hloop (sends_finish args) w1)
      as [es [He Hn]].
    exists es. split; [|lia]. apply added_app.
    rewrite He, Hinit. unfold loaded, after_log. cbn [trace basicConfig fst].
    rewrite <- !app_assoc. reflexivity.
  - exists []. split; [|cbn; lia]. apply added_app.
    cbn [fst]. rewrite Hinit. unfold loaded, after_log.
    cbn [trace basicConfig fst]. rewrite <- !app_assoc. reflexivity.
Qed.

(** X8. [main] sends the request for the landing page and at most two
    requests per row of the input, whatever the services answer and
    however the run ends; it sends none when the input cannot be read. *)
Theorem request_budget (args : Args) (w : World net) :
  match csv_rows (input args) with
  | Ok data =>
      length (requests (added w (fst (run args w)))) <= 1 + 2 * length data
  | Raise _ => requests (added w (fst (run args w))) = []
  end.
Proof.
  destruct (csv_rows (input args)) as [data|e] eqn:Hcsv.
  - destruct (main_trace args w data _ Hcsv
                (sends_process_rows (interval args) data)) as [es [-> Hn]].
    cbn [requests filter is_get length]. fold (requests es). lia.
  - rewrite main_unfold, Hcsv. cbn [fst].
    rewrite (added_app net w (loaded args w)
               [Log INFO ("Data loaded from " ++ input args)]);
      reflexivity.
Qed.

(** X9. On an input whose rows all have the district column already, the
    only request of the whole run is the one for the landing page. *)
Theorem augmented_input_sends_one_request
        (args : Args) (w : World net) (data : list dict) :
  csv_rows (input args) = Ok data ->
  Forall (fun row => Dict.contains ccd row = true) data ->
  requests (added w (fst (run args w)))
  = [Get "https://www.austintexas.gov/government" []].
Proof.
  intros Hcsv Hall.
  destruct (main_trace args w data 0 Hcsv
              (sends_process_skipped (interval args) data Hall))
    as [es [-> Hn]].
  cbn [requests filter is_get]. fold (requests es).
  destruct (requests es); [reflexivity | cbn in Hn; lia].
Qed.

(** X10. On an input without any row, [main] still fetches the landing page
    and opens the output, then raises [IndexError] on the first row it
    looks for: the output file is left empty, whatever it held. *)
Theorem empty_input_empties_the_output (args : Args) (w : World net) :
  csv_rows (input args) = Ok [] ->
  returns init (loaded args w) ->
  can_write (output args) = true ->
  exists w',
    run args w = (w', Raise IndexError)
    /\ Dict.lookup (output args) (files w') = Some [].
Proof.
  intros Hcsv [w1 [[] Hinit]] Hcan.
  rewrite main_unfold, Hcsv, Hinit.
  unfold bind at 1. cbn [process_rows ret].
  unfold finish, bind at 1, open_w. rewrite Hcan. cbn [write_file].
  unfold bind at 1, lift_result. eexists. split; [reflexivity|].
  cbn [files]. apply lookup_set_same.
Qed.

(** X11. When the loop over the rows raises, [main] ends with that exception
    and no file was touched: the augmentations made so far are lost. *)
Theorem fault_in_the_loop_writes_nothing
        (args : Args) (w w1 w2 : World net) (data : list dict) (e : exn) :
  csv_rows (input args) = Ok data ->
  init (loaded args w) = (w1, Ok tt) ->
  rows_loop (interval args) data w1 = (w2, Raise e) ->
  run args w = (w2, Raise e) /\ files w2 = files w.
Proof.
  intros Hcsv Hinit Hloop. rewrite main_unfold, Hcsv, Hinit.
  unfold bind. rewrite Hloop. split; [reflexivity|].
  pose proof (keeps_process_rows (interval args) data w1) as H1.
  rewrite Hloop in H1. cbn [fst] in H1. rewrite H1.
  destruct (init_trace (loaded args w)) as [_ H0].
  rewrite Hinit in H0. exact H0.
Qed.

(** X12. An interval that [time.sleep] refuses is found out only after the
    first row was processed: [main] then ends with the exception of
    [time.sleep], the requests for that row sent and nothing written. *)
Theorem refused_interval_stops_after_first_row
        (args : Args) (w w1 w2 : World net) (row row' : dict)
        (rest : list dict) (e : exn) :
  csv_rows (input args) = Ok (row :: rest) ->
  init (loaded args w) = (w1, Ok tt) ->
  sleep_refuses (interval args) = Some e ->
  call row
       (after_log w1 INFO
          ("Processing row: name: "
             ++ str repr (Dict.get "first_name" VNone row) ++ " "
             ++ str repr (Dict.get "last_name" VNone row)
             ++ " address: " ++ assemble_address repr row))
  = (w2, Ok row') ->
  run args w = (w2, Raise e) /\ files w2 = files w.
Proof.
  intros Hcsv Hinit Hsleep Hcall.
  assert (Hloop : rows_loop (interval args) (row :: rest) w1 = (w2, Raise e)).
  { rewrite process_rows_step. cbv zeta. now rewrite Hcall, Hsleep. }
  rewrite main_unfold, Hcsv, Hinit.
  unfold bind. rewrite Hloop. split; [reflexivity|].
  pose proof (keeps_process_rows (interval args) (row :: rest) w1) as H1.
  rewrite Hloop in H1. cbn [fst] in H1. rewrite H1.
  destruct (init_trace (loaded args w)) as [_ H0].
  rewrite Hinit in H0. exact H0.
Qed.

End MainMore.

(** ** The writer, once more *)

Lemma keys_row_of_record (cols : list string) (record : list string) :
  length record = length cols ->
  Dict.keys (row_of_record cols record) = cols.
Proof.
  unfold row_of_record, Dict.keys. revert record.
  induction cols as [|c cols IH]; intros [|x record]; cbn; try discriminate;
    trivial.
  intros [= H]. now rewrite IH.
Qed.

Lemma lookup_absent (k : string) (d : dict) :
  ~ In k (Dict.keys d) -> Dict.lookup k d = None.
Proof.
  induction d as [|[k' v] d IH]; cbn; [reflexivity|]. intros H.
  destruct (String.eqb_spec k k') as [->|_]; [tauto|]. apply IH. tauto.
Qed.

(** Reading a record and writing the row back gives the record. *)
Lemma record_of_row_of_record (repr : value -> string) (cols : list string)
      (record : list string) :
  NoDup cols ->
  length record = length cols ->
  record_of repr cols (row_of_record cols record) = record.
Proof.
  unfold record_of, row_of_record. intros Hnd. revert record.
  induction Hnd as [|c cols Hc Hnd IH]; intros [|x record]; cbn [length];
    try discriminate; trivial.
  intros [= Hlen]. cbn [map combine]. f_equal.
  - unfold Dict.get. cbn [Dict.lookup]. now rewrite String.eqb_refl.
  - rewrite <- (IH record Hlen) at 1. symmetry. apply map_ext_in.
    intros k Hk. unfold Dict.get. cbn [Dict.lookup].
    destruct (String.eqb_spec k c) as [->|_]; [contradiction | reflexivity].
Qed.

Section WriterMore.

Variable net : Type.
Variable repr : value -> string.

Lemma dict_to_list_fits (fieldnames : list string) (row : dict) :
  dict_to_list repr fieldnames row
  = if fits fieldnames row then Ok (record_of repr fieldnames row)
    else Raise ValueError.
Proof. reflexivity. Qed.

(** Rows that fit the columns are all written, one record each. *)
Lemma writerows_all (path : string) (fieldnames : list string)
      (rows : list dict) :
  Forall (fun row => fits fieldnames row = true) rows ->
  forall (w : World net) (written : csv_file),
    Dict.lookup path (files w) = Some written ->
    exists w',
      writerows net repr path fieldnames rows w = (w', Ok tt)
      /\ trace w' = trace w
      /\ Dict.lookup path (files w')
         = Some (written ++ map (record_of repr fieldnames) rows)%list.
Proof.
  induction 1 as [|row rows Hrow _ IH]; intros w written Hw;
    cbn [writerows map].
  - exists w. rewrite app_nil_r. now repeat split.
  - unfold bind at 1, lift_result. rewrite dict_to_list_fits, Hrow.
    unfold bind at 1. rewrite write_record_files.
    match goal with
    | |- context [writerows _ _ _ _ _ ?w1] =>
        destruct (IH w1 (written
                           ++ [record_of repr fieldnames row])%list)
          as [w' [Hrun [Ht Hf]]]
    end.
    + cbn [files]. rewrite lookup_set_same. unfold Dict.get, csv_file in *.
      now rewrite Hw.
    + exists w'. rewrite Hrun, Ht, Hf, <- app_assoc. now repeat split.
Qed.

(** The first row that does not fit stops the writing with [ValueError];
    the records of the rows before it are in the file. *)
Lemma writerows_raises (path : string) (fieldnames : list string)
      (good : list dict) (bad : dict) (more : list dict) :
  Forall (fun row => fits fieldnames row = true) good ->
  fits fieldnames bad = false ->
  forall (w : World net) (written : csv_file),
    Dict.lookup path (files w) = Some written ->
    exists w',
      writerows net repr path fieldnames (good ++ bad :: more) w
      = (w', Raise ValueError)
      /\ Dict.lookup path (files w')
         = Some (written ++ map (record_of repr fieldnames) good)%list.
Proof.
  intros Hgood Hbad. induction Hgood as [|row rows Hrow _ IH];
    intros w written Hw; cbn [writerows map app].
  - unfold bind at 1, lift_result. rewrite dict_to_list_fits, Hbad.
    exists w. rewrite app_nil_r. now split.
  - unfold bind at 1, lift_result. rewrite dict_to_list_fits, Hrow.
    unfold bind at 1. rewrite write_record_files.
    match goal with
    | |- context [writerows _ _ _ _ _ ?w1] =>
        destruct (IH w1 (written
                           ++ [record_of repr fieldnames row])%list)
          as [w' [Hrun Hf]]
    end.
    + cbn [files]. rewrite lookup_set_same. unfold Dict.get, csv_file in *.
      now rewrite Hw.
    + exists w'. rewrite Hrun, Hf, <- app_assoc. now split.
Qed.

Variable can_write : string -> bool.

(** The [with] block of [main] up to the header. *)
Lemma finish_unfold (args : Args) (first : dict) (rest : list dict)
      (w : World net) :
  can_write (output args) = true ->
  exists w0,
    finish repr can_write args (first :: rest) w
    = bind (writerows net repr (output args) (Dict.keys first)
                      (first :: rest))
           (fun _ =>
              logger_info net ("Augmented data written to " ++ output args))
           w0
    /\ Dict.lookup (output args) (files w0) = Some [Dict.keys first].
Proof.
  intros Hcan. unfold finish, bind at 1, open_w. rewrite Hcan.
  cbn [write_file]. unfold bind at 1, lift_result.
  unfold bind at 1, writeheader. rewrite write_record_files.
  eexists. split; [reflexivity|].
  cbn [files]. rewrite lookup_set_same. unfold Dict.get, csv_file in *.
  now rewrite lookup_set_same.
Qed.

Lemma fits_self (row : dict) : fits (Dict.keys row) row = true.
Proof. apply forallb_mem_self. Qed.

End WriterMore.

(** ** The loop and the file *)

Lemma paced_sleeps (secs : value) (n : nat) (es : list event) :
  paced secs n es ->
  filter is_sleep es = repeat (Sleep secs) n
  /\ (n <> 0 -> exists es', es = (es' ++ [Sleep secs])%list).
Proof.
  induction 1 as [|e body rest n He Hbody Hp [IHs IHl]].
  - split; [reflexivity | congruence].
  - assert (Hnone : filter is_sleep body = []).
    { clear - Hbody. induction body as [|x body IH]; [reflexivity|].
      cbn in *. apply andb_prop in Hbody. destruct Hbody as [Hx Hb].
      unfold inner in Hx. apply andb_prop in Hx. destruct Hx as [_ Hx].
      destruct (is_sleep x); [discriminate | auto]. }
    split.
    + cbn [filter]. destruct e; try discriminate He. cbn [is_sleep].
      rewrite filter_app, Hnone. cbn [filter is_sleep app repeat].
      now rewrite IHs.
    + intros _. destruct n as [|n].
      * inversion Hp; subst. exists (e :: body). reflexivity.
      * destruct (IHl ltac:(discriminate)) as [es' ->].
        exists (e :: body ++ Sleep secs :: es')%list.
        cbn [app]. now rewrite <- app_assoc.
Qed.

Section LoopMore.

Variable net : Type.
Variable http_get : net -> string -> dict -> net * option string.
Variable json_loads : string -> option value.
Variable repr : value -> string.
Variable int_of_str : string -> option Z.
Variable sleep_refuses : value -> option exn.
Variable csv_rows : string -> result (list dict).
Variable can_write : string -> bool.

#[local] Abbreviation call :=
  (call_on_row net http_get json_loads repr int_of_str).
#[local] Abbreviation rows_loop :=
  (process_rows net http_get json_loads repr int_of_str sleep_refuses).
#[local] Abbreviation init := (AustinDataService_init net http_get).
#[local] Abbreviation run :=
  (main net http_get json_loads repr int_of_str sleep_refuses csv_rows
        can_write).

(** The trace of a loop that returns: one block per row. *)
Lemma loop_blocks (secs : value) (data : list dict) :
  forall (w w' : World net) (data' : list dict),
    rows_loop secs data w = (w', Ok data') ->
    exists es,
      trace w' = (trace w ++ es)%list /\ paced secs (length data) es.
Proof.
  induction data as [|row rest IH]; intros w w' data'.
  - intros [= <- _]. exists []. rewrite app_nil_r. split; constructor.
  - rewrite process_rows_step. cbv zeta.
    match goal with
    | |- context [call row ?w0] =>
        destruct (quiet_call_on_row net http_get json_loads repr int_of_str
                    row w0) as [es1 [He1 Hes1]];
        destruct (call row w0) as [w1 [row'|e]]
    end; [|discriminate].
    unfold after_log in He1; cbn [fst trace] in He1.
    destruct (sleep_refuses secs); [discriminate|].
    destruct (rows_loop secs rest _) as [w3 [rest'|e]] eqn:Hrest;
      [|discriminate].
    intros [= <- _]. destruct (IH _ _ _ Hrest) as [es3 [He3 Hp]].
    cbn [trace] in He3. eexists. split.
    + rewrite He3, He1, <- !app_assoc. reflexivity.
    + cbn [app length]. now constructor.
Qed.

(** A loop that returns has slept once per row, the last row included. *)
Lemma loop_sleeps
        (secs : value) (data data' : list dict) (w w' : World net) :
  rows_loop secs data w = (w', Ok data') ->
  filter is_sleep (added w w') = repeat (Sleep secs) (length data)
  /\ (data <> [] -> exists es, added w w' = (es ++ [Sleep secs])%list).
Proof.
  intros H. destruct (loop_blocks secs data w w' data' H) as [es [He Hp]].
  rewrite (added_app net w w' es He).
  destruct (paced_sleeps secs _ es Hp) as [Hs Hl]. split; [exact Hs|].
  intros Hne. apply Hl. destruct data; [contradiction | discriminate].
Qed.

(** Rows stopped by the guard come back from the loop as they went in. *)
Lemma loop_skips (secs : value) (data : list dict) :
  sleep_refuses secs = None ->
  Forall (fun row => Dict.contains ccd row = true) data ->
  forall w : World net, exists w', rows_loop secs data w = (w', Ok data).
Proof.
  intros Hs. induction 1 as [|row rest G _ IH]; intros w.
  - now exists w.
  - rewrite process_rows_step. cbv zeta. unfold call_on_row.
    rewrite (guard_skips _ _ _ _ _ _ row G), Hs.
    match goal with
    | |- context [rows_loop secs rest ?w2] =>
        destruct (IH w2) as [w' Hrest]
    end.
    rewrite Hrest. now exists w'.
Qed.

(** X14. Take an input with at least one record that has the district
    column already, with distinct column names and records as long as the
    header. Once the landing page is fetched, with an interval that
    [time.sleep] accepts and an output file that can be opened, [main]
    completes and writes the input back: the same header and the same
    records, field for field. *)
Theorem augmented_input_is_written_back
        (args : Args) (w : World net) (cols : list string)
        (records : list (list string)) :
  csv_rows (input args) = Ok (map (row_of_record cols) records) ->
  records <> [] ->
  NoDup cols ->
  mem ccd cols = true ->
  Forall (fun record => length record = length cols) records ->
  returns init (loaded args w) ->
  sleep_refuses (interval args) = None ->
  can_write (output args) = true ->
  exists w',
    run args w = (w', Ok tt)
    /\ Dict.lookup (output args) (files w') = Some (cols :: records).
Proof.
  intros Hcsv Hne Hnd Hccd Hlen [w1 [[] Hinit]] Hsleep Hcan.
  set (data := map (row_of_record cols) records) in *.
  assert (Hkeys : Forall (fun row => Dict.keys row = cols) data).
  { subst data. apply Forall_map. revert Hlen. apply Forall_impl.
    intros record. apply keys_row_of_record. }
  assert (Hguard : Forall (fun row => Dict.contains ccd row = true) data).
  { revert Hkeys. apply Forall_impl. intros row Hrow.
    now rewrite contains_mem_keys, Hrow. }
  destruct (loop_skips (interval args) data Hsleep Hguard w1) as [w2 Hloop].
  rewrite (main_unfold net http_get json_loads repr int_of_str sleep_refuses
             csv_rows can_write), Hcsv, Hinit.
  fold data. unfold bind at 1. rewrite Hloop.
  destruct data as [|first rest] eqn:Hdata.
  { destruct records; [contradiction | discriminate]. }
  destruct (finish_unfold net repr can_write args first rest w2 Hcan)
    as [w0 [-> Hfile]].
  assert (Hfirst : Dict.keys first = cols) by now inversion Hkeys.
  rewrite Hfirst in *.
  assert (Hfits : Forall (fun row => fits cols row = true) (first :: rest)).
  { revert Hkeys. apply Forall_impl. intros row <-. apply fits_self. }
  destruct (writerows_all net repr (output args) cols (first :: rest) Hfits
              w0 [cols] Hfile) as [w3 [Hrun [_ Hf]]].
  unfold bind at 1. rewrite Hrun. eexists. split; [reflexivity|].
  cbn [logger_info emit fst files]. unfold logger_info, emit. cbn [files].
  rewrite Hf. cbn [app]. do 2 f_equal.
  rewrite <- Hdata. subst data. rewrite map_map.
  rewrite <- (map_id records) at 2. apply map_ext_in. intros record Hin.
  apply record_of_row_of_record; trivial.
  rewrite Forall_forall in Hlen. now apply Hlen.
Qed.

(** X15. When a row that the loop returned has a column that the first row
    lacks, the writer stops on it with [ValueError]: [main] ends with
    that exception, and the output file holds the header and the records
    of the rows before that one, no more. *)
Theorem foreign_column_stops_the_writer
        (args : Args) (w w1 w2 : World net) (data : list dict)
        (first : dict) (good : list dict) (bad : dict) (more : list dict) :
  csv_rows (input args) = Ok data ->
  init (loaded args w) = (w1, Ok tt) ->
  rows_loop (interval args) data w1
  = (w2, Ok (first :: good ++ bad :: more)) ->
  Forall (fun row => fits (Dict.keys first) row = true) good ->
  fits (Dict.keys first) bad = false ->
  can_write (output args) = true ->
  exists w',
    run args w = (w', Raise ValueError)
    /\ Dict.lookup (output args) (files w')
       = Some (Dict.keys first
                 :: map (record_of repr (Dict.keys first)) (first :: good)).
Proof.
  intros Hcsv Hinit Hloop Hgood Hbad Hcan.
  rewrite (main_unfold net http_get json_loads repr int_of_str sleep_refuses
             csv_rows can_write), Hcsv, Hinit.
  unfold bind at 1. rewrite Hloop.
  destruct (finish_unfold net repr can_write args first
              (good ++ bad :: more) w2 Hcan) as [w0 [-> Hfile]].
  assert (Hgood' : Forall (fun row => fits (Dict.keys first) row = true)
                          (first :: good))
    by (constructor; [apply fits_self | exact Hgood]).
  destruct (writerows_raises net repr (output args) (Dict.keys first)
              (first :: good) bad more Hgood' Hbad w0 [Dict.keys first] Hfile)
    as [w3 [Hrun Hf]].
  unfold bind at 1. cbn [app] in Hrun. rewrite Hrun.
  exists w3. split; [reflexivity | exact Hf].
Qed.

End LoopMore.

(** ** The district attribute and the candidate's location *)

Section ClientMore.

Variable net : Type.
Variable http_get : net -> string -> dict -> net * option string.
Variable json_loads : string -> option value.
Variable repr : value -> string.
Variable int_of_str : string -> option Z.

#[local] Abbreviation geocode := (geocode_address net http_get json_loads).
#[local] Abbreviation district_of :=
  (get_council_district net http_get json_loads repr int_of_str).
#[local] Abbreviation add :=
  (add_city_council_district net http_get json_loads repr int_of_str).

Lemma district_of_attribute (w : World net) (location : Location.t)
      (n : net) (body : string) (data feature attributes district : value)
      (others : list value) :
  http_get (remote w) district_url (district_params repr location)
  = (n, Some body) ->
  json_loads body = Some data ->
  getitem data "features" = Ok (VList (feature :: others)) ->
  getitem feature "attributes" = Ok attributes ->
  getitem attributes "COUNCIL_DISTRICT" = Ok district ->
  district_of location w
  = (after_get w n district_url (district_params repr location),
     match int int_of_str district with
     | Ok z => Ok (Some z)
     | Raise e => Raise e
     end).
Proof.
  intros H Hd Hf Ha Hc. unfold get_council_district, bind at 1.
  rewrite (session_get_answered _ _ _ _ _ _ _ H).
  unfold bind, loads, lift_result. rewrite Hd. unfold ret. rewrite Hf.
  cbn [truthy getitem0]. rewrite Ha, Hc.
  now destruct (int int_of_str district).
Qed.

(** X16. The district stored in a row is [int] of the [COUNCIL_DISTRICT] of the
    first feature, whatever integer that gives, zero included, and in
    whatever form the service sent it. When [int] refuses the attribute
    (a null, say) the call ends with its exception after the geocoded
    address was stored, and no district is written, not even [Unknown]. *)
Theorem district_is_int_of_attribute
        (w w1 : World net) (row : dict) (g : GeocodedAddress.t)
        (body : string) (data feature attributes district : value)
        (others : list value) :
  Dict.contains ccd row = false ->
  geocode (assemble_address repr row) w = (w1, Ok (Some g)) ->
  district_answer http_get repr w1 (GeocodedAddress.location g) = Some body ->
  json_loads body = Some data ->
  getitem data "features" = Ok (VList (feature :: others)) ->
  getitem feature "attributes" = Ok attributes ->
  getitem attributes "COUNCIL_DISTRICT" = Ok district ->
  let '((_, row'), r) := add (w, row) in
  match int int_of_str district with
  | Ok z =>
      r = Ok tt
      /\ row' = Dict.set ccd (VInt z)
                        (Dict.set ga (GeocodedAddress.address g) row)
  | Raise e =>
      r = Raise e /\ row' = Dict.set ga (GeocodedAddress.address g) row
  end.
Proof.
  intros G Hg Ha Hd Hf Hat Hcd.
  destruct (answer_of_district_service _ _ _ _ _ _ Ha) as [n Hn].
  rewrite (unguarded_call net http_get json_loads repr int_of_str w row G), Hg.
  cbv zeta.
  rewrite (district_of_attribute _ _ n body data feature attributes district
             others); trivial.
  now destruct (int int_of_str district).
Qed.

(** X17. The location of a candidate must have the keys [x] and [y] and no
    other: with any further key, [geocode_address] raises [TypeError]
    although the address was found. *)
Theorem location_with_extra_key_is_rejected
        (w : World net) (address : string) (data candidate a : value)
        (others : list value) (d : dict) (k : string) :
  getitem data "candidates" = Ok (VList (candidate :: others)) ->
  getitem candidate "address" = Ok a ->
  getitem candidate "location" = Ok (VDict d) ->
  Dict.contains k d = true ->
  k <> "x" ->
  k <> "y" ->
  geocoded_of_payload net address data w = (w, Raise TypeError).
Proof.
  intros Hc Ha Hl Hk Hx Hy.
  unfold geocoded_of_payload, bind, lift_result. rewrite Hc.
  cbn [truthy getitem0]. rewrite Ha, Hl.
  unfold Location_of, kwargs.
  destruct (forallb (fun k0 => mem k0 ["x"; "y"]) (Dict.keys d)) eqn:Hall;
    [|reflexivity].
  exfalso. rewrite forallb_forall in Hall.
  rewrite contains_mem_keys in Hk. unfold mem in Hk at 1.
  apply existsb_exists in Hk. destruct Hk as [k' [Hin Heq]].
  apply String.eqb_eq in Heq. subst k'.
  specialize (Hall k Hin). unfold mem in Hall. cbn [existsb] in Hall.
  destruct (String.eqb_spec k "x"); [contradiction|].
  destruct (String.eqb_spec k "y"); [contradiction|]. discriminate Hall.
Qed.

End ClientMore.

(** ** [test_api] *)

Section TesterFacts.

Variable net : Type.
Variable http_get : net -> string -> dict -> net * option string.
Variable json_loads : string -> option value.
Variable repr : value -> string.
Variable int_of_str : string -> option Z.

#[local] Abbreviation init := (AustinDataService_init net http_get).
#[local] Abbreviation geocode := (geocode_address net http_get json_loads).
#[local] Abbreviation district_of :=
  (get_council_district net http_get json_loads repr int_of_str).
#[local] Abbreviation test :=
  (test_api net http_get json_loads repr int_of_str).

(** X18. Without a geocoding, [test_api] prints three lines and stops there:
    the world it leaves is the one [geocode_address] left, so the district
    service is not asked. *)
Theorem test_api_without_geocoding
        (address : string) (w w1 w2 : World net) (out : list string) :
  init (fst (basicConfig net INFO w)) = (w1, Ok tt) ->
  geocode address w1 = (w2, Ok None) ->
  test address (w, out)
  = ((w2,
      (out ++ [ ("Testing with address: " ++ address)%string;
                (newline ++ "Testing geocode_address:")%string;
                "  No geocoded address found" ])%list),
     Ok tt).
Proof.
  intros Hinit Hg. unfold test_api, bind, in_world, print, basicConfig in *.
  cbv beta iota zeta delta [fst snd] in *. rewrite Hinit.
  cbv beta iota zeta delta [fst snd]. rewrite Hg.
  cbv beta iota zeta delta [fst snd]. unfold ret.
  now rewrite <- !app_assoc.
Qed.

(** X19. With a geocoding, [test_api] prints it, asks for the district and
    prints the answer; since it tests the truth of the district, district
    0 is printed as no district found, like an absent one. *)
Theorem test_api_reports_district
        (address : string) (w w1 w2 w3 : World net) (out : list string)
        (g : GeocodedAddress.t) (district : option Z) :
  init (fst (basicConfig net INFO w)) = (w1, Ok tt) ->
  geocode address w1 = (w2, Ok (Some g)) ->
  district_of (GeocodedAddress.location g) w2 = (w3, Ok district) ->
  test address (w, out)
  = ((w3,
      (out ++ [ ("Testing with address: " ++ address)%string;
                (newline ++ "Testing geocode_address:")%string;
                GeocodedAddress_repr repr g;
                (newline ++ "Testing get_council_district:")%string;
                match district with
                | Some z =>
                    if (z =? 0)%Z then "  No council district found"
                    else ("  Council District: " ++ repr (VInt z))%string
                | None => "  No council district found"
                end ])%list),
     Ok tt).
Proof.
  intros Hinit Hg Hd. unfold test_api, bind, in_world, print, basicConfig in *.
  cbv beta iota zeta delta [fst snd] in *. rewrite Hinit.
  cbv beta iota zeta delta [fst snd]. rewrite Hg.
  cbv beta iota zeta delta [fst snd]. rewrite Hd.
  cbv beta iota zeta delta [fst snd].
  destruct district as [z|]; cbn [truthy str].
  - destruct (z =? 0)%Z; cbn [negb]; now rewrite <- !app_assoc.
  - now rewrite <- !app_assoc.
Qed.

End TesterFacts.

(** ** The requests of one call *)

Section CallRequests.

Variable net : Type.
Variable http_get : net -> string -> dict -> net * option string.
Variable json_loads : string -> option value.
Variable repr : value -> string.
Variable int_of_str : string -> option Z.

#[local] Abbreviation geocode := (geocode_address net http_get json_loads).
#[local] Abbreviation district_of :=
  (get_council_district net http_get json_loads repr int_of_str).
#[local] Abbreviation add :=
  (add_city_council_district net http_get json_loads repr int_of_str).

(** A request followed by steps that send nothing: one request. *)
Lemma one_request {A} (url : string) (params : dict)
      (rest : string -> M (World net) A) (w : World net) :
  (forall text, sends_at_most 0 (rest text)) ->
  exists es,
    trace (fst (bind (session_get net http_get url params) rest w))
    = (trace w ++ es)%list
    /\ requests es = [Get url params].
Proof.
  intros Hrest. unfold bind, session_get.
  destruct (http_get (remote w) url params) as [n [body|]].
  - match goal with
    | |- context [rest body ?w0] => destruct (Hrest body w0) as [es [He Hn]]
    end.
    exists (Get url params :: es). split.
    + rewrite He. cbn [trace]. rewrite <- app_assoc. reflexivity.
    + cbn [requests filter is_get]. fold (requests es).
      destruct (requests es); [reflexivity | cbn in Hn; lia].
  - exists [Get url params]. now split.
Qed.

Lemma geocode_requests (address : string) (w : World net) :
  exists es,
    trace (fst (geocode address w)) = (trace w ++ es)%list
    /\ requests es = [Get geocode_url (geocode_params address)].
Proof.
  unfold geocode_address. apply one_request. intros text.
  unfold geocoded_of_payload.
  repeat (apply (sends_bind net 0 0); [|intros]);
    try apply sends_lift_result; try apply sends_loads.
  - destruct (negb _); [apply sends_log | apply sends_ret].
  - destruct (truthy _);
      repeat (apply (sends_bind net 0 0); [|intros]);
      try apply sends_lift_result; try apply sends_ret; apply sends_log.
Qed.

Lemma district_requests (location : Location.t) (w : World net) :
  exists es,
    trace (fst (district_of location w)) = (trace w ++ es)%list
    /\ requests es = [Get district_url (district_params repr location)].
Proof.
  unfold get_council_district. apply one_request. intros text.
  repeat (apply (sends_bind net 0 0); [|intros]);
    try apply sends_lift_result; try apply sends_loads.
  destruct (truthy _);
    repeat (apply (sends_bind net 0 0); [|intros]);
    try apply sends_lift_result; apply sends_ret.
Qed.

(** X7. The requests of one call, exactly: none for a row that has the
    district column; otherwise the geocoding of the assembled address,
    followed, only when that gave a result, by the district query for the
    location of that result. *)
Theorem requests_of_a_call (w : World net) (row : dict) :
  let address := assemble_address repr row in
  requests (added w (fst (fst (add (w, row)))))
  = if Dict.contains ccd row then []
    else match snd (geocode address w) with
         | Ok (Some g) =>
             [ Get geocode_url (geocode_params address);
               Get district_url
                   (district_params repr (GeocodedAddress.location g)) ]
         | _ => [Get geocode_url (geocode_params address)]
         end.
Proof.
  cbv zeta. destruct (Dict.contains ccd row) eqn:G.
  - rewrite (guard_skips _ _ _ _ _ w row G). cbn [fst].
    rewrite (added_app net w w []); [reflexivity | now rewrite app_nil_r].
  - rewrite (unguarded_call _ _ _ _ _ w row G).
    destruct (geocode_requests (assemble_address repr row) w)
      as [es [He Hr]].
    destruct (geocode _ w) as [w1 [[g|]|e]]; cbn [fst snd] in *.
    + cbv zeta. unfold logger_info, emit. cbn [fst].
      match goal with
      | |- context [district_of ?l ?w2] =>
          destruct (district_requests l w2) as [es' [He' Hr']];
          destruct (district_of l w2) as [w3 [d|e]]
      end; cbn [fst trace] in *.
      * erewrite added_app;
          [|rewrite He', He, <- !app_assoc; reflexivity].
        unfold requests in *. rewrite !filter_app, Hr, Hr'. reflexivity.
      * erewrite added_app;
          [|rewrite He', He, <- !app_assoc; reflexivity].
        unfold requests in *. rewrite !filter_app, Hr, Hr'. reflexivity.
    + unfold logger_info, emit. cbn [fst trace].
      erewrite added_app; [|rewrite He, <- !app_assoc; reflexivity].
      unfold requests in *. rewrite !filter_app, Hr. reflexivity.
    + erewrite added_app; [|exact He]. exact Hr.
Qed.

End CallRequests.

(** ** Further concrete runs *)

(** The fresh row, augmented, then met again. *)
Lemma second_call_run :
  let row' :=
    snd (fst (Cases.call Cases.geo Demo.district_7_json
                (Demo.start, Demo.fresh_row))) in
  Cases.call Cases.geo Demo.district_7_json (Demo.start, row')
  = ((Demo.start, row'), Ok tt).
Proof.
  exact (second_call_is_skipped nat
           (Cases.http Cases.geo Demo.district_7_json)
           Cases.json_loads Cases.repr Demo.int_of_str Demo.start
           (fst (fst (Cases.call Cases.geo Demo.district_7_json
                        (Demo.start, Demo.fresh_row))))
           Demo.start Demo.fresh_row
           (snd (fst (Cases.call Cases.geo Demo.district_7_json
                        (Demo.start, Demo.fresh_row))))
           eq_refl).
Defined.

(** The fresh row in district 7: the address found and an integer. *)
Lemma returned_call_run :
  let row' :=
    snd (fst (Cases.call Cases.geo Demo.district_7_json
                (Demo.start, Demo.fresh_row))) in
  match snd (Cases.geocode Cases.geo Demo.district_7_json Cases.address
               Demo.start) with
  | Ok None =>
      Dict.lookup ga row' = Some (VStr "")
      /\ Dict.lookup ccd row' = Some (VStr "")
  | Ok (Some g) =>
      Dict.lookup ga row' = Some (GeocodedAddress.address g)
      /\ (Dict.lookup ccd row' = Some (VStr "Unknown")
          \/ exists z, Dict.lookup ccd row' = Some (VInt z))
      /\ Dict.lookup ccd row' <> Some (VStr "")
  | Raise _ => False
  end.
Proof.
  exact (returned_call_outcome nat
           (Cases.http Cases.geo Demo.district_7_json)
           Cases.json_loads Cases.repr Demo.int_of_str Demo.start
           (fst (fst (Cases.call Cases.geo Demo.district_7_json
                        (Demo.start, Demo.fresh_row))))
           Demo.fresh_row
           (snd (fst (Cases.call Cases.geo Demo.district_7_json
                        (Demo.start, Demo.fresh_row))))
           eq_refl eq_refl).
Defined.

(** A null district: the call raises, the address is in the row, the
    district is not. *)
Lemma raising_call_run :
  let row' :=
    snd (fst (Cases.call Cases.geo Cases.district_null_json
                (Demo.start, Demo.fresh_row))) in
  Dict.contains ccd Demo.fresh_row = false
  /\ Dict.contains ccd row' = false
  /\ (row' = Demo.fresh_row
      \/ exists g,
          snd (Cases.geocode Cases.geo Cases.district_null_json Cases.address
                 Demo.start) = Ok (Some g)
          /\ row' = Dict.set ga (GeocodedAddress.address g) Demo.fresh_row).
Proof.
  exact (raising_call_writes_no_district nat
           (Cases.http Cases.geo Cases.district_null_json)
           Cases.json_loads Cases.repr Demo.int_of_str Demo.start
           (fst (fst (Cases.call Cases.geo Cases.district_null_json
                        (Demo.start, Demo.fresh_row))))
           Demo.fresh_row
           (snd (fst (Cases.call Cases.geo Cases.district_null_json
                        (Demo.start, Demo.fresh_row))))
           TypeError eq_refl).
Defined.

(** The address of the fresh row, before and after. *)
Lemma address_survives_run :
  let '((_, row'), _) :=
    Cases.call Cases.geo Demo.district_7_json (Demo.start, Demo.fresh_row) in
  assemble_address Cases.repr row'
  = assemble_address Cases.repr Demo.fresh_row.
Proof.
  exact (address_survives_the_call nat
           (Cases.http Cases.geo Demo.district_7_json)
           Cases.json_loads Cases.repr Demo.int_of_str Demo.start
           Demo.fresh_row).
Defined.

(** A wrapper under another name, closed by a parenthesis and a
    newline. *)
Lemma wrapped_payload_run :
  let tail := ")" ++ newline in
  let body := "jsonp1" ++ "(" ++ Demo.no_candidates_json ++ tail in
  let w0 :=
    after_get Demo.start 1 geocode_url (geocode_params Cases.address) in
  let w1 := after_log w0 WARNING (wrapper_warning body) in
  str_index "(" body = Ok 6
  /\ slice body 7 (-2) = Demo.no_candidates_json
  /\ Cases.geocode body Demo.no_features_json Cases.address Demo.start
     = match Cases.json_loads Demo.no_candidates_json with
       | Some data => geocoded_of_payload nat Cases.address data w1
       | None => (w1, Raise JSONDecodeError)
       end.
Proof.
  exact (wrapped_payload_is_parsed nat
           (Cases.http ("jsonp1" ++ "(" ++ Demo.no_candidates_json
                          ++ ")" ++ newline) Demo.no_features_json)
           Cases.json_loads Demo.start Cases.address 1
           "jsonp1" Demo.no_candidates_json (")" ++ newline)
           eq_refl eq_refl eq_refl).
Defined.

(** An error page instead of the wrapper. *)
Lemma answer_without_parenthesis_run :
  Cases.geocode "oops" Demo.no_features_json Cases.address Demo.start
  = (after_log
       (after_get Demo.start 1 geocode_url (geocode_params Cases.address))
       WARNING (wrapper_warning "oops"),
     Raise ValueError).
Proof.
  apply (answer_without_parenthesis nat
           (Cases.http "oops" Demo.no_features_json)
           Cases.json_loads Demo.start Cases.address 1 "oops").
  - intros i. do 5 (destruct i as [|i]; [discriminate|]). discriminate.
  - reflexivity.
Defined.

(** The requests for the fresh row. *)
Lemma requests_of_a_call_run :
  requests
    (added Demo.start
       (fst (fst (Cases.call Cases.geo Demo.district_7_json
                    (Demo.start, Demo.fresh_row)))))
  = [ Get geocode_url (geocode_params Cases.address);
      Get district_url
          (district_params Cases.repr
             (GeocodedAddress.location Demo.geocoded)) ].
Proof.
  exact (requests_of_a_call nat (Cases.http Cases.geo Demo.district_7_json)
           Cases.json_loads Cases.repr Demo.int_of_str Demo.start
           Demo.fresh_row).
Defined.

(** Two fresh rows: at most five requests. *)
Lemma request_budget_run :
  length
    (requests
       (added Demo.start
          (fst (Cases.run Cases.geo Demo.district_7_json
                  [Demo.fresh_row; Demo.fresh_row] Demo.args Demo.start))))
  <= 5.
Proof.
  exact (request_budget nat (Cases.http Cases.geo Demo.district_7_json)
           Cases.json_loads Cases.repr Demo.int_of_str Cases.sleep_refuses
           (Demo.csv_rows [Demo.fresh_row; Demo.fresh_row]) Demo.can_write
           Demo.args Demo.start).
Defined.

(** Two augmented rows: the landing page and no more. *)
Lemma augmented_input_requests_run :
  requests
    (added Demo.start
       (fst (Cases.run Cases.geo Demo.district_7_json
               [Demo.augmented_row; Demo.failed_row] Demo.args Demo.start)))
  = [Get "https://www.austintexas.gov/government" []].
Proof.
  apply (augmented_input_sends_one_request nat
           (Cases.http Cases.geo Demo.district_7_json)
           Cases.json_loads Cases.repr Demo.int_of_str Cases.sleep_refuses
           (Demo.csv_rows [Demo.augmented_row; Demo.failed_row])
           Demo.can_write Demo.args Demo.start
           [Demo.augmented_row; Demo.failed_row]).
  - reflexivity.
  - repeat constructor.
Defined.

(** An input with a header and no row. *)
Lemma empty_input_run :
  exists w',
    Cases.run Cases.geo Demo.district_7_json [] Demo.args Demo.start
    = (w', Raise IndexError)
    /\ Dict.lookup "out.csv" (files w') = Some [].
Proof.
  apply (empty_input_empties_the_output nat
           (Cases.http Cases.geo Demo.district_7_json)
           Cases.json_loads Cases.repr Demo.int_of_str Cases.sleep_refuses
           (Demo.csv_rows []) Demo.can_write Demo.args Demo.start).
  - reflexivity.
  - eexists _, _. reflexivity.
  - reflexivity.
Defined.

(** The geocoder answers with an error page on the first row. *)
Lemma fault_in_the_loop_run :
  let w2 :=
    fst (Cases.loop "oops" Demo.district_7_json (VInt 30) [Demo.fresh_row]
           (Cases.ready "oops" Demo.district_7_json Demo.args)) in
  Cases.run "oops" Demo.district_7_json [Demo.fresh_row] Demo.args Demo.start
  = (w2, Raise ValueError)
  /\ files w2 = files Demo.start.
Proof.
  apply (fault_in_the_loop_writes_nothing nat
           (Cases.http "oops" Demo.district_7_json)
           Cases.json_loads Cases.repr Demo.int_of_str Cases.sleep_refuses
           (Demo.csv_rows [Demo.fresh_row]) Demo.can_write
           Demo.args Demo.start
           (Cases.ready "oops" Demo.district_7_json Demo.args)
           _ [Demo.fresh_row] ValueError);
    vm_compute; reflexivity.
Defined.

(** A negative interval, noticed after the first row was processed with
    its landing page, geocoding and district requests. *)
Lemma refused_interval_run :
  let w2 :=
    fst (Cases.run Cases.geo Demo.district_7_json [Demo.fresh_row]
                   Cases.hasty Demo.start) in
  (Cases.run Cases.geo Demo.district_7_json [Demo.fresh_row] Cases.hasty
             Demo.start
   = (w2, Raise ValueError)
   /\ files w2 = files Demo.start)
  /\ length (requests (added Demo.start w2)) = 3.
Proof.
  cbv zeta. split; [|vm_compute; reflexivity].
  apply (refused_interval_stops_after_first_row nat
           (Cases.http Cases.geo Demo.district_7_json)
           Cases.json_loads Cases.repr Demo.int_of_str Cases.sleep_refuses
           (Demo.csv_rows [Demo.fresh_row]) Demo.can_write
           Cases.hasty Demo.start
           (Cases.ready Cases.geo Demo.district_7_json Cases.hasty)
           _ Demo.fresh_row
           (snd (fst (Cases.call Cases.geo Demo.district_7_json
                        (Demo.start, Demo.fresh_row))))
           [] ValueError);
    vm_compute; reflexivity.
Defined.

(** The augmented input is written back as it was read. *)
Lemma written_back_run :
  exists w',
    Cases.run Cases.geo Demo.district_7_json
              (map (row_of_record Cases.columns) Cases.records)
              Demo.args Demo.start
    = (w', Ok tt)
    /\ Dict.lookup "out.csv" (files w')
       = Some (Cases.columns :: Cases.records).
Proof.
  apply (augmented_input_is_written_back nat
           (Cases.http Cases.geo Demo.district_7_json)
           Cases.json_loads Cases.repr Demo.int_of_str Cases.sleep_refuses
           (Demo.csv_rows (map (row_of_record Cases.columns) Cases.records))
           Demo.can_write Demo.args Demo.start Cases.columns Cases.records).
  - reflexivity.
  - discriminate.
  - repeat constructor; cbn; intuition discriminate.
  - reflexivity.
  - repeat constructor.
  - eexists _, _. reflexivity.
  - reflexivity.
  - reflexivity.
Defined.

(** An augmented row first, a fresh row second: the fresh row gets two
    columns that the header lacks, and the writer stops on it. *)
Lemma foreign_column_run :
  exists w',
    Cases.run Cases.geo Demo.district_7_json
              [Demo.augmented_row; Demo.fresh_row] Demo.args Demo.start
    = (w', Raise ValueError)
    /\ Dict.lookup "out.csv" (files w')
       = Some [["first_name"; "city_council_district"]; ["Ann"; "9"]].
Proof.
  apply (foreign_column_stops_the_writer nat
           (Cases.http Cases.geo Demo.district_7_json)
           Cases.json_loads Cases.repr Demo.int_of_str Cases.sleep_refuses
           (Demo.csv_rows [Demo.augmented_row; Demo.fresh_row])
           Demo.can_write Demo.args Demo.start
           (Cases.ready Cases.geo Demo.district_7_json Demo.args)
           (fst (Cases.loop Cases.geo Demo.district_7_json (VInt 30)
                   [Demo.augmented_row; Demo.fresh_row]
                   (Cases.ready Cases.geo Demo.district_7_json Demo.args)))
           [Demo.augmented_row; Demo.fresh_row]
           Demo.augmented_row []
           (snd (fst (Cases.call Cases.geo Demo.district_7_json
                        (Demo.start, Demo.fresh_row))))
           []).
  - reflexivity.
  - vm_compute. reflexivity.
  - vm_compute. reflexivity.
  - constructor.
  - reflexivity.
  - reflexivity.
Defined.

(** The district sent as a text, and sent as null. *)
Lemma district_as_text_run :
  let '((_, row'), r) :=
    Cases.call Cases.geo Cases.district_text_json
               (Demo.start, Demo.fresh_row) in
  r = Ok tt
  /\ row' = Dict.set ccd (VInt 7)
                    (Dict.set ga (VStr "301 W 2ND ST") Demo.fresh_row).
Proof.
  exact (district_is_int_of_attribute nat
           (Cases.http Cases.geo Cases.district_text_json)
           Cases.json_loads Cases.repr Demo.int_of_str Demo.start
           (fst (Cases.geocode Cases.geo Cases.district_text_json
                   Cases.address Demo.start))
           Demo.fresh_row Demo.geocoded Cases.district_text_json
           (VDict [("features", VList [Cases.feature_of (VStr "7")])])
           (Cases.feature_of (VStr "7"))
           (VDict [("COUNCIL_DISTRICT", VStr "7")]) (VStr "7") []
           eq_refl eq_refl eq_refl eq_refl eq_refl eq_refl eq_refl).
Defined.

(** A location that also carries a spatial reference. *)
Lemma extra_key_run :
  let location :=
    VDict [("x", VInt 1); ("y", VInt 2); ("spatialReference", VInt 2277)] in
  let data :=
    VDict [("candidates",
            VList [VDict [("address", VStr "1 MAIN ST");
                          ("location", location)]])] in
  geocoded_of_payload nat "1 Main St" data Demo.start
  = (Demo.start, Raise TypeError).
Proof.
  cbv zeta.
  apply (location_with_extra_key_is_rejected nat Demo.start "1 Main St"
           (VDict [("candidates",
                    VList [VDict [("address", VStr "1 MAIN ST");
                                  ("location",
                                   VDict [("x", VInt 1); ("y", VInt 2);
                                          ("spatialReference", VInt 2277)])]])])
           (VDict [("address", VStr "1 MAIN ST");
                   ("location",
                    VDict [("x", VInt 1); ("y", VInt 2);
                           ("spatialReference", VInt 2277)])])
           (VStr "1 MAIN ST") []
           [("x", VInt 1); ("y", VInt 2); ("spatialReference", VInt 2277)]
           "spatialReference");
    (reflexivity || discriminate).
Defined.

(** [test_api] on an address the geocoder does not know. *)
Lemma test_api_unknown_run :
  Cases.test (Demo.jsonp Demo.no_candidates_json) Demo.no_features_json
             "nowhere" (Demo.start, [])
  = ((fst (Cases.geocode (Demo.jsonp Demo.no_candidates_json)
             Demo.no_features_json "nowhere"
             (fst (AustinDataService_init nat
                     (Cases.http (Demo.jsonp Demo.no_candidates_json)
                                 Demo.no_features_json)
                     (fst (basicConfig nat INFO Demo.start))))),
      [ "Testing with address: nowhere";
        (newline ++ "Testing geocode_address:")%string;
        "  No geocoded address found" ]),
     Ok tt).
Proof.
  exact (test_api_without_geocoding nat
           (Cases.http (Demo.jsonp Demo.no_candidates_json)
                       Demo.no_features_json)
           Cases.json_loads Cases.repr Demo.int_of_str "nowhere"
           Demo.start _ _ [] eq_refl eq_refl).
Defined.

(** [test_api] on an address in district 0. *)
Lemma test_api_district_0_run :
  Cases.test Cases.geo Cases.district_0_json "301 W 2nd St" (Demo.start, [])
  = ((fst (fst (Cases.test Cases.geo Cases.district_0_json "301 W 2nd St"
                  (Demo.start, []))),
      [ "Testing with address: 301 W 2nd St";
        (newline ++ "Testing geocode_address:")%string;
        GeocodedAddress_repr Cases.repr Demo.geocoded;
        (newline ++ "Testing get_council_district:")%string;
        "  No council district found" ]),
     Ok tt).
Proof.
  exact (test_api_reports_district nat
           (Cases.http Cases.geo Cases.district_0_json)
           Cases.json_loads Cases.repr Demo.int_of_str "301 W 2nd St"
           Demo.start _ _ _ [] Demo.geocoded (Some 0%Z)
           eq_refl eq_refl eq_refl).
Defined.

(** ** The pacing of [main] *)

Lemma separated_cons (secs : value) (x : event) (es : list event) :
  row_start x = false -> separated secs es -> separated secs (x :: es).
Proof.
  intros Hx Hes pre e1 mid e2 post Heq H1 H2.
  destruct pre as [|p pre]; cbn [app] in Heq; injection Heq as Hhd Heq.
  - subst. congruence.
  - exact (Hes pre e1 mid e2 post Heq H1 H2).
Qed.

Lemma separated_snoc (secs : value) (x : event) (es : list event) :
  row_start x = false -> separated secs es -> separated secs (es ++ [x]).
Proof.
  intros Hx Hes pre e1 mid e2 post Heq H1 H2.
  destruct (exists_last (l := e2 :: post)) as [l [y Hl]]; [discriminate|].
  assert (Hsplit : (pre ++ e1 :: mid ++ e2 :: post
                    = (pre ++ e1 :: mid ++ l) ++ [y])%list).
  { rewrite Hl, <- !app_assoc. cbn [app]. now rewrite <- !app_assoc. }
  rewrite Hsplit in Heq. apply app_inj_tail in Heq. destruct Heq as [Heq <-].
  destruct l as [|z l]; cbn [app] in Hl; injection Hl as Hz Hl.
  - subst. congruence.
  - subst z. apply (Hes pre e1 mid e2 l); trivial.
Qed.

Section Pacing.

Variable net : Type.
Variable http_get : net -> string -> dict -> net * option string.
Variable json_loads : string -> option value.
Variable repr : value -> string.
Variable int_of_str : string -> option Z.
Variable sleep_refuses : value -> option exn.
Variable csv_rows : string -> result (list dict).
Variable can_write : string -> bool.

#[local] Abbreviation rows_loop :=
  (process_rows net http_get json_loads repr int_of_str sleep_refuses).
#[local] Abbreviation init := (AustinDataService_init net http_get).
#[local] Abbreviation run :=
  (main net http_get json_loads repr int_of_str sleep_refuses csv_rows
        can_write).

Lemma writerows_trace (path : string) (fieldnames : list string)
      (rows : list dict) (w : World net) :
  trace (fst (writerows net repr path fieldnames rows w)) = trace w.
Proof.
  revert w. induction rows as [|row rows IH]; intros w; cbn [writerows].
  - reflexivity.
  - unfold bind at 1, lift_result.
    destruct (dict_to_list repr fieldnames row); [|reflexivity].
    unfold bind at 1. rewrite write_record_files. now rewrite IH.
Qed.

(** What the end of [main] adds to the trace: its last log line when it
    completes, nothing when it raises. *)
Lemma finish_trace (args : Args) (data : list dict) (w : World net) :
  let '(w', r) := finish repr can_write args data w in
  match r with
  | Ok _ =>
      trace w'
      = (trace w
           ++ [Log INFO ("Augmented data written to " ++ output args)])%list
      /\ data <> []
  | Raise _ => trace w' = trace w
  end.
Proof.
  unfold finish, bind at 1, open_w.
  destruct (can_write (output args)); [|reflexivity].
  cbn [write_file]. unfold bind at 1, lift_result.
  destruct data as [|first rest]; [reflexivity|].
  unfold bind at 1, writeheader. rewrite write_record_files.
  unfold bind at 1.
  match goal with
  | |- context [writerows _ _ ?p ?f ?r ?w0] =>
      pose proof (writerows_trace p f r w0) as Ht;
      destruct (writerows net repr p f r w0) as [w4 [[]|e]]
  end; cbn [fst trace] in Ht.
  - unfold logger_info, emit. rewrite Ht. split; [reflexivity|discriminate].
  - exact Ht.
Qed.

(** C9. In every run of [main] that has read its input and fetched the
    landing page, each row, augmented or skipped, is followed by a call of
    [time.sleep] with the configured interval before the next row is
    opened; the interval is the one given on the command line, and 30
    when none is given. The events of the loop are one block per row, each
    opened by the log line of the row and closed by that sleep, followed
    by the row in progress when an exception stopped the loop; so in the
    whole trace of [main] two openings of a row always have a sleep of the
    configured interval between them. *)
Theorem rows_are_paced
        (v : bool) (i o : string) (n : option value)
        (w : World net) (data : list dict) :
  let args := parse_args v i o n in
  let secs :=
    match n with
    | Some given => given
    | None => VInt 30
    end in
  csv_rows i = Ok data ->
  returns init (loaded args w) ->
  let '(w', r) := run args w in
  exists es tail,
    added w w'
    = Log INFO ("Data loaded from " ++ i)
        :: Get "https://www.austintexas.gov/government" []
        :: (es ++ tail)%list
    /\ separated secs (added w w')
    /\ match r with
       | Ok _ =>
           paced secs (length data) es
           /\ tail = [Log INFO ("Augmented data written to " ++ o)]
       | Raise _ =>
           tail = []
           /\ (paced secs (length data) es
               \/ exists k, k < length data /\ paced_until_raise secs k es)
       end.
Proof.
  intros args secs Hcsv [w1 [[] Hinit]].
  rewrite (main_unfold net http_get json_loads repr int_of_str sleep_refuses
             csv_rows can_write).
  change (input args) with i. rewrite Hcsv, Hinit.
  change (interval args) with secs. unfold bind at 1.
  destruct (init_trace net http_get (loaded args w)) as [Hw1 _].
  rewrite Hinit in Hw1. cbn [fst] in Hw1.
  assert (Hw0 : trace (loaded args w)
                = (trace w ++ [Log INFO ("Data loaded from " ++ i)])%list)
    by reflexivity.
  pose proof (loop_trace net http_get json_loads repr int_of_str
                sleep_refuses secs data w1) as Hloop.
  destruct (rows_loop secs data w1) as [w2 [data'|e]];
    destruct Hloop as [es [He [Hsep Hp]]].
  - pose proof (finish_trace args data' w2) as Hfin.
    destruct (finish repr can_write args data' w2) as [w3 [[]|e]].
    + destruct Hfin as [Hfin _], Hp as [_ Hp].
      exists es, [Log INFO ("Augmented data written to " ++ o)].
      assert (Hadded : added w w3
                = Log INFO ("Data loaded from " ++ i)
                    :: Get "https://www.austintexas.gov/government" []
                    :: (es ++ [Log INFO ("Augmented data written to "
                                           ++ o)])%list).
      { apply added_app. rewrite Hfin, He, Hw1, Hw0.
        rewrite <- !app_assoc. reflexivity. }
      rewrite Hadded. split; [reflexivity|]. split; [|now split].
      apply separated_cons; [reflexivity|].
      apply separated_cons; [reflexivity|].
      apply separated_snoc; [reflexivity | exact Hsep].
    + destruct Hp as [_ Hp]. exists es, [].
      assert (Hadded : added w w3
                = Log INFO ("Data loaded from " ++ i)
                    :: Get "https://www.austintexas.gov/government" []
                    :: (es ++ [])%list).
      { apply added_app. rewrite Hfin, He, Hw1, Hw0.
        rewrite <- !app_assoc, app_nil_r. reflexivity. }
      rewrite Hadded. split; [reflexivity|]. split; [|split; auto].
      rewrite app_nil_r.
      apply separated_cons; [reflexivity|].
      apply separated_cons; [reflexivity | exact Hsep].
  - exists es, [].
    assert (Hadded : added w w2
              = Log INFO ("Data loaded from " ++ i)
                  :: Get "https://www.austintexas.gov/government" []
                  :: (es ++ [])%list).
    { apply added_app. rewrite He, Hw1, Hw0.
      rewrite <- !app_assoc, app_nil_r. reflexivity. }
    rewrite Hadded. split; [reflexivity|]. split; [|split; auto].
    rewrite app_nil_r.
    apply separated_cons; [reflexivity|].
    apply separated_cons; [reflexivity | exact Hsep].
Qed.

(** X13. A run of [main] that completes has slept exactly once per row,
    with the configured interval, the last row included. When the loop
    ends, the last thing done is that sleep and no file has been touched
    yet: all that is left of [main] is to open and write the output. *)
Theorem main_sleeps_once_per_row
        (args : Args) (w w1 w' : World net) (data : list dict) :
  csv_rows (input args) = Ok data ->
  init (loaded args w) = (w1, Ok tt) ->
  run args w = (w', Ok tt) ->
  filter is_sleep (added w w') = repeat (Sleep (interval args)) (length data)
  /\ exists w2 data' es,
      rows_loop (interval args) data w1 = (w2, Ok data')
      /\ added w w2 = (es ++ [Sleep (interval args)])%list
      /\ files w2 = files w
      /\ run args w = finish repr can_write args data' w2.
Proof.
  intros Hcsv Hinit Hrun.
  rewrite (main_unfold net http_get json_loads repr int_of_str sleep_refuses
             csv_rows can_write), Hcsv, Hinit in Hrun.
  unfold bind at 1 in Hrun.
  destruct (rows_loop (interval args) data w1) as [w2 [data'|e]] eqn:Hloop;
    [|discriminate].
  destruct (init_trace net http_get (loaded args w)) as [Hw1 Hf1].
  rewrite Hinit in Hw1, Hf1. cbn [fst] in Hw1, Hf1.
  assert (Hw0 : trace (loaded args w)
                = (trace w
                     ++ [Log INFO ("Data loaded from " ++ input args)])%list)
    by reflexivity.
  destruct (loop_blocks net http_get json_loads repr int_of_str
              sleep_refuses (interval args) data w1 w2 data' Hloop)
    as [es [He Hp]].
  destruct (paced_sleeps (interval args) _ es Hp) as [Hs Hlast].
  pose proof (finish_trace args data' w2) as Hfin. rewrite Hrun in Hfin.
  destruct Hfin as [Hfin Hne].
  assert (Hlen : length data = length data').
  { apply (Forall2_length
             (process_rows_returned net http_get json_loads repr int_of_str
                sleep_refuses (interval args) data w1 w2 data' Hloop)). }
  assert (Hn : length data <> 0).
  { rewrite Hlen. destruct data'; [contradiction | discriminate]. }
  destruct (Hlast Hn) as [es' Hes'].
  split.
  - erewrite added_app;
      [|rewrite Hfin, He, Hw1, Hw0, <- !app_assoc; reflexivity].
    cbn [app filter is_sleep]. rewrite filter_app. cbn [filter is_sleep].
    rewrite app_nil_r. exact Hs.
  - exists w2, data',
      (Log INFO ("Data loaded from " ++ input args)
         :: Get "https://www.austintexas.gov/government" [] :: es')%list.
    split; [reflexivity|]. split; [|split].
    + apply added_app. rewrite He, Hw1, Hw0, Hes', <- !app_assoc.
      reflexivity.
    + pose proof (keeps_process_rows net http_get json_loads repr int_of_str
                    sleep_refuses (interval args) data w1) as Hk.
      rewrite Hloop in Hk. cbn [fst] in Hk. now rewrite Hk, Hf1.
    + rewrite (main_unfold net http_get json_loads repr int_of_str
                 sleep_refuses csv_rows can_write), Hcsv, Hinit.
      unfold bind at 1. now rewrite Hloop.
Qed.

End Pacing.

(** Two fresh rows, run by [main] with the default interval: each is
    augmented, then followed by its sleep of 30. *)
Lemma rows_are_paced_run :
  let '(w', r) :=
    Cases.run Cases.geo Demo.district_7_json
              [Demo.fresh_row; Demo.fresh_row] Demo.args Demo.start in
  exists es tail,
    added Demo.start w'
    = Log INFO "Data loaded from members.csv"
        :: Get "https://www.austintexas.gov/government" []
        :: (es ++ tail)%list
    /\ separated (VInt 30) (added Demo.start w')
    /\ match r with
       | Ok _ =>
           paced (VInt 30) 2 es
           /\ tail = [Log INFO "Augmented data written to out.csv"]
       | Raise _ =>
           tail = []
           /\ (paced (VInt 30) 2 es
               \/ exists k, k < 2 /\ paced_until_raise (VInt 30) k es)
       end.
Proof.
  apply (rows_are_paced nat (Cases.http Cases.geo Demo.district_7_json)
           Cases.json_loads Cases.repr Demo.int_of_str Cases.sleep_refuses
           (Demo.csv_rows [Demo.fresh_row; Demo.fresh_row])
           Demo.can_write false "members.csv" "out.csv" None Demo.start
           [Demo.fresh_row; Demo.fresh_row]).
  - reflexivity.
  - eexists _, _. reflexivity.
Defined.

(** Two augmented rows written back: two sleeps, the second one last
    before the writing. *)
Lemma main_sleeps_run :
  let w' :=
    fst (Cases.run Cases.geo Demo.district_7_json
                   [Demo.augmented_row; Demo.augmented_row] Demo.args
                   Demo.start) in
  filter is_sleep (added Demo.start w') = [Sleep (VInt 30); Sleep (VInt 30)]
  /\ exists w2 data' es,
      Cases.loop Cases.geo Demo.district_7_json (VInt 30)
                 [Demo.augmented_row; Demo.augmented_row]
                 (Cases.ready Cases.geo Demo.district_7_json Demo.args)
      = (w2, Ok data')
      /\ added Demo.start w2 = (es ++ [Sleep (VInt 30)])%list
      /\ files w2 = files Demo.start
      /\ Cases.run Cases.geo Demo.district_7_json
                   [Demo.augmented_row; Demo.augmented_row] Demo.args Demo.start
         = finish Cases.repr Demo.can_write Demo.args data' w2.
Proof.
  apply (main_sleeps_once_per_row nat
           (Cases.http Cases.geo Demo.district_7_json)
           Cases.json_loads Cases.repr Demo.int_of_str Cases.sleep_refuses
           (Demo.csv_rows [Demo.augmented_row; Demo.augmented_row])
           Demo.can_write Demo.args Demo.start
           (Cases.ready Cases.geo Demo.district_7_json Demo.args)
           _ [Demo.augmented_row; Demo.augmented_row]);
    vm_compute; reflexivity.
Defined.
